(** * The structured logging module of the bot (app/logger.js)

    A shallow embedding of [app/logger.js]: the caller resolver
    [getCallerInfo], the error-location extractor [getErrorLocation], the
    public logging operations, the HTTP access-log [stream] adapter and the
    two timestamp formatters, followed by the properties established about
    them.

    Conventions of the model.
    - A JavaScript string is a [string]: a sequence of code units, an
      [ascii] standing for a code unit below 256.
    - A JavaScript number is an integer [Z]; [NaN] and fractions are outside
      the data model.
    - Effects (the global [Error.prepareStackTrace] hook, the calls made on
      the winston logger, the console, thrown exceptions) are threaded
      through the monad [M] over the record [World]. *)

From Stdlib Require Import ZArith List String Ascii Bool Lia.
From Stdlib Require Import DecimalString.

Set Warnings "-register-all".
Import ListNotations.

Local Open Scope string_scope.
Local Open Scope Z_scope.

(* ===================================================================== *)
(** ** Strings (String.prototype) *)
(* ===================================================================== *)

Module Js.

(** [s.startsWith(p)]. *)
Fixpoint startsWith (s p : string) : bool :=
  match p, s with
  | EmptyString, _ => true
  | String _ _, EmptyString => false
  | String a p', String b s' => Ascii.eqb a b && startsWith s' p'
  end.

(** [s.includes(p)]. *)
Fixpoint includes (s p : string) : bool :=
  startsWith s p ||
  match s with
  | EmptyString => false
  | String _ s' => includes s' p
  end.

(** The remainder of [s] after the literal prefix [p], when [s] starts
    with [p]. *)
Fixpoint strip_prefix (p s : string) : option string :=
  match p, s with
  | EmptyString, _ => Some s
  | String _ _, EmptyString => None
  | String a p', String b s' =>
      if Ascii.eqb a b then strip_prefix p' s' else None
  end.

(** [s.substring(0, n)] for a natural [n]: the first [n] code units. *)
Fixpoint take (n : nat) (s : string) : string :=
  match n, s with
  | O, _ => EmptyString
  | S _, EmptyString => EmptyString
  | S n', String c s' => String c (take n' s')
  end.

Definition lengthZ (s : string) : Z := Z.of_nat (String.length s).

(** [s.split(sep)] for a one-character separator: never the empty list. *)
Fixpoint split (sep : ascii) (s : string) : list string :=
  match s with
  | EmptyString => [EmptyString]
  | String c s' =>
      if Ascii.eqb c sep then EmptyString :: split sep s'
      else match split sep s' with
           | [] => [String c EmptyString]
           | x :: xs => String c x :: xs
           end
  end.

(** WhiteSpace and LineTerminator code units below 256: TAB, LF, VT, FF,
    CR, SP and NBSP. *)
Definition is_space (c : ascii) : bool :=
  let n := nat_of_ascii c in
  (Nat.eqb n 9 || Nat.eqb n 10 || Nat.eqb n 11 || Nat.eqb n 12 ||
   Nat.eqb n 13 || Nat.eqb n 32 || Nat.eqb n 160)%bool.

Definition is_digit (c : ascii) : bool :=
  let n := nat_of_ascii c in (Nat.leb 48 n && Nat.leb n 57)%bool.

Fixpoint trimStart (s : string) : string :=
  match s with
  | EmptyString => EmptyString
  | String c s' => if is_space c then trimStart s' else s
  end.

(** Removes the white space at the end: [trimEnd s] keeps a character when
    it is not white space or when something is kept after it. *)
Fixpoint trimEnd (s : string) : string :=
  match s with
  | EmptyString => EmptyString
  | String c s' =>
      match trimEnd s' with
      | EmptyString => if is_space c then EmptyString else String c EmptyString
      | r => String c r
      end
  end.

(** [s.trim()]: white space removed at both ends. *)
Definition trim (s : string) : string := trimEnd (trimStart s).

(** [s.replace(/\\/g, '/')]-style replacement of every occurrence of one
    character. *)
Fixpoint replaceAllChar (a b : ascii) (s : string) : string :=
  match s with
  | EmptyString => EmptyString
  | String c s' =>
      String (if Ascii.eqb c a then b else c) (replaceAllChar a b s')
  end.

(** [s.replace(p, r)] for a string pattern [p]: the first occurrence only. *)
Fixpoint replaceFirst (p r s : string) : string :=
  match strip_prefix p s with
  | Some rest => r ++ rest
  | None =>
      match s with
      | EmptyString => EmptyString
      | String c s' => String c (replaceFirst p r s')
      end
  end.

(** Decimal rendering of an integer, as in a template literal. *)
Definition ofZ (n : Z) : string := NilZero.string_of_int (Z.to_int n).

Definition digit_val (c : ascii) : Z := Z.of_nat (nat_of_ascii c) - 48.

Fixpoint digits_acc (acc : Z) (s : string) : Z :=
  match s with
  | EmptyString => acc
  | String c s' =>
      if is_digit c then digits_acc (10 * acc + digit_val c) s' else acc
  end.

Fixpoint all_digits (s : string) : bool :=
  match s with
  | EmptyString => true
  | String c s' => is_digit c && all_digits s'
  end.

(** [parseInt(s)] on the strings the extractor gives it, non-empty runs of
    decimal digits: the value of the leading digits (exact, where a
    double rounds above 2^53). *)
Definition parseInt (s : string) : Z := digits_acc 0 s.

End Js.

(* ===================================================================== *)
(** ** Regular expressions (the subset the module uses) *)
(* ===================================================================== *)

Module Regex.

(** Character classes. *)
Inductive cls : Type :=
| Dot                                   (* .  : anything but LF and CR *)
| Digit                                 (* \d *)
| NoneOf (cs : list ascii) (sp : bool). (* [^...]; [sp]: \s is listed *)

Definition cls_ok (k : cls) (c : ascii) : bool :=
  match k with
  | Dot => negb (Nat.eqb (nat_of_ascii c) 10 || Nat.eqb (nat_of_ascii c) 13)
  | Digit => Js.is_digit c
  | NoneOf cs sp =>
      negb (existsb (Ascii.eqb c) cs) && negb (sp && Js.is_space c)
  end.

Inductive re : Type :=
| Lit (s : string)             (* literal text *)
| Plus (k : cls)               (* k+   greedy *)
| PlusLazy (k : cls)           (* k+?  lazy *)
| Seq (a b : re)               (* ab *)
| Opt (a : re)                 (* (?:a)? greedy *)
| Group (i : nat) (a : re).    (* capturing group number i *)

(** Captures: group number to captured text. *)
Definition caps : Type := list (nat * string).

Fixpoint cap (i : nat) (c : caps) : option string :=
  match c with
  | [] => None
  | (j, s) :: c' => if Nat.eqb i j then Some s else cap i c'
  end.

Section Matcher.
Context {R : Type}.

(** [k*] greedy then the continuation, backtracking to shorter runs. *)
Fixpoint star_greedy (k : cls) (s : string) (kont : string -> option R)
  : option R :=
  match s with
  | EmptyString => kont s
  | String c s' =>
      if cls_ok k c then
        match star_greedy k s' kont with
        | Some r => Some r
        | None => kont s
        end
      else kont s
  end.

Definition plus_greedy (k : cls) (s : string) (kont : string -> option R)
  : option R :=
  match s with
  | EmptyString => None
  | String c s' => if cls_ok k c then star_greedy k s' kont else None
  end.

(** [k*?] lazy: the continuation first, then one more character. *)
Fixpoint star_lazy (k : cls) (s : string) (kont : string -> option R)
  : option R :=
  match kont s with
  | Some r => Some r
  | None =>
      match s with
      | EmptyString => None
      | String c s' => if cls_ok k c then star_lazy k s' kont else None
      end
  end.

Definition plus_lazy (k : cls) (s : string) (kont : string -> option R)
  : option R :=
  match s with
  | EmptyString => None
  | String c s' => if cls_ok k c then star_lazy k s' kont else None
  end.

(** The text consumed between the input [s] and its suffix [s']. *)
Definition consumed (s s' : string) : string :=
  Js.take (String.length s - String.length s') s.

(** Backtracking matcher in continuation-passing style: [run r s c kont]
    matches [r] at the head of [s] and hands the rest of the input and
    the captures to [kont]; a [None] from [kont] makes it try the next
    alternative, in the order of a backtracking engine. *)
Fixpoint run (r : re) (s : string) (c : caps)
         (kont : string -> caps -> option R) : option R :=
  match r with
  | Lit l =>
      match Js.strip_prefix l s with
      | Some s' => kont s' c
      | None => None
      end
  | Plus k => plus_greedy k s (fun s' => kont s' c)
  | PlusLazy k => plus_lazy k s (fun s' => kont s' c)
  | Seq a b => run a s c (fun s' c' => run b s' c' kont)
  | Opt a =>
      match run a s c kont with
      | Some x => Some x
      | None => kont s c
      end
  | Group i a => run a s c (fun s' c' => kont s' ((i, consumed s s') :: c'))
  end.
End Matcher.

(** A successful match: the text before it, the matched text, the text
    after it and the captures. *)
Record found : Type := Found {
  before : string;
  matched : string;
  after : string;
  groups : caps
}.

(** Match anchored at the head of [s]. *)
Definition match_here (r : re) (s : string) : option (string * caps) :=
  run r s [] (fun s' c => Some (s', c)).

(** [s.match(r)] for a pattern without the global flag: the leftmost
    match, the start moving right one code unit at a time. *)
Fixpoint exec_from (r : re) (pre : string) (s : string) : option found :=
  match match_here r s with
  | Some (rest, c) => Some (Found pre (consumed s rest) rest c)
  | None =>
      match s with
      | EmptyString => None
      | String ch s' => exec_from r (pre ++ String ch EmptyString) s'
      end
  end.

Definition exec (r : re) (s : string) : option found := exec_from r "" s.

(** [s.replace(r, f)]: the leftmost match replaced by what [f] builds from
    the captures; [s] itself when nothing matches. *)
Definition replace (r : re) (f : caps -> string) (s : string) : string :=
  match exec r s with
  | Some m => before m ++ f (groups m) ++ after m
  | None => s
  end.

End Regex.

(* ===================================================================== *)
(** ** Paths (Node's [path] module, POSIX flavour) *)
(* ===================================================================== *)

Module Path.

(** [path.isAbsolute(p)]. *)
Definition isAbsolute (p : string) : bool := Js.startsWith p "/".

Definition segments (p : string) : list string :=
  filter (fun s => negb (String.eqb s "")) (Js.split "/"%char p).

(** Normalisation of a segment list against the stack [acc] (innermost
    first): ["."] is dropped, [".."] pops, and popping at the root stays at
    the root. *)
Fixpoint normalize (acc : list string) (segs : list string) : list string :=
  match segs with
  | [] => rev acc
  | s :: rest =>
      if String.eqb s "." then normalize acc rest
      else if String.eqb s ".." then normalize (tl acc) rest
      else normalize (s :: acc) rest
  end.

(** [path.resolve(p)] as the segment list of the absolute result, in a
    process whose working directory is [cwd]. *)
Definition resolve (cwd p : string) : list string :=
  if isAbsolute p then normalize [] (segments p)
  else normalize [] (segments cwd ++ segments p).

Fixpoint strip_common (f t : list string) : list string * list string :=
  match f, t with
  | a :: f', b :: t' => if String.eqb a b then strip_common f' t' else (f, t)
  | _, _ => (f, t)
  end.

Fixpoint join (segs : list string) : string :=
  match segs with
  | [] => ""
  | [s] => s
  | s :: rest => s ++ "/" ++ join rest
  end.

(** [path.relative(from, to)] in a process whose working directory is
    [cwd]: one [".."] for each segment of [from] below the common
    ancestor, then the segments of [to] below it. *)
Definition relative (cwd from to : string) : string :=
  if String.eqb from to then ""
  else
    let '(f, t) := strip_common (resolve cwd from) (resolve cwd to) in
    join (map (fun _ => "..") f ++ t).

End Path.

(* ===================================================================== *)
(** ** Values and objects *)
(* ===================================================================== *)

(** The values the logging operations receive. An object is its list of
    own enumerable properties in insertion order, with distinct names; an
    [Error] instance carries [name], [message] and [stack], none of them
    enumerable, and no other property. There are no function values:
    every property that is read and then called below is a method the
    prototype of the receiver provides or not. *)
Inductive value : Type :=
| VUndefined
| VNull
| VBool (b : bool)
| VNum (n : Z)
| VStr (s : string)
| VObj (props : list (string * value))
| VError (name message stack : value).

Definition obj : Type := list (string * value).

Inductive exn : Type :=
| TypeError (what : string)
| ReferenceError (ident : string)
| RangeError (what : string)
| SinkError (what : string).

(** [o[k]] on the property list: [None] when [k] is not an own property. *)
Fixpoint lookup (k : string) (o : obj) : option value :=
  match o with
  | [] => None
  | (k', v) :: o' => if String.eqb k k' then Some v else lookup k o'
  end.

(** [o[k] = v]: an existing property keeps its position and takes the new
    value, a new one goes last. *)
Fixpoint assign (k : string) (v : value) (o : obj) : obj :=
  match o with
  | [] => [(k, v)]
  | (k', v') :: o' =>
      if String.eqb k k' then (k', v) :: o' else (k', v') :: assign k v o'
  end.

Definition keys (o : obj) : list string := map fst o.

(** The characters of a string as the indexed properties ["0"], ["1"], ... *)
Fixpoint indexed (i : nat) (s : string) : obj :=
  match s with
  | EmptyString => []
  | String c s' =>
      (Js.ofZ (Z.of_nat i), VStr (String c EmptyString)) :: indexed (S i) s'
  end.

(** The own enumerable properties that [...v] and [Object.keys(v)] see:
    those of an object, the indexed characters of a string, none for the
    other values. *)
Definition own_props (v : value) : obj :=
  match v with
  | VObj props => props
  | VStr s => indexed 0 s
  | _ => []
  end.

(** [{...acc, ...v}]: the properties of [v] assigned in order onto [acc]. *)
Definition spread (v : value) (acc : obj) : obj :=
  fold_left (fun a kv => assign (fst kv) (snd kv) a) (own_props v) acc.

(** ToBoolean. *)
Definition truthy (v : value) : bool :=
  match v with
  | VUndefined | VNull => false
  | VBool b => b
  | VNum n => negb (n =? 0)
  | VStr s => negb (String.eqb s "")
  | VObj _ | VError _ _ _ => true
  end.

(** [a || b]. *)
Definition or_else (a b : value) : value := if truthy a then a else b.

(** A parameter default: [v = d] in a parameter list. *)
Definition default (v d : value) : value :=
  match v with
  | VUndefined => d
  | _ => v
  end.

(** ToString, as a template literal applies it. *)
Definition toStr (v : value) : string :=
  match v with
  | VUndefined => "undefined"
  | VNull => "null"
  | VBool true => "true"
  | VBool false => "false"
  | VNum n => Js.ofZ n
  | VStr s => s
  | VObj _ => "[object Object]"
  | VError name message _ =>
      let n := match name with VUndefined => "Error" | VStr s => s
                             | _ => "[object Object]" end in
      let m := match message with VUndefined => "" | VStr s => s
                                | _ => "[object Object]" end in
      if String.eqb n "" then m
      else if String.eqb m "" then n
      else n ++ ": " ++ m
  end.

(** ToNumber, [None] standing for [NaN]; a string converts when it is,
    white space apart, empty or a run of decimal digits (signs, fractions,
    exponents and radix prefixes are outside the data model). *)
Definition toNum (v : value) : option Z :=
  match v with
  | VUndefined => None
  | VNull => Some 0
  | VBool b => Some (if b then 1 else 0)
  | VNum n => Some n
  | VStr s =>
      let t := Js.trim s in
      if Js.all_digits t then Some (Js.parseInt t) else None
  | VObj _ | VError _ _ _ => None
  end.

(* ===================================================================== *)
(** ** The world the module runs in, and the effect monad *)
(* ===================================================================== *)

(** A V8 call site, as [getFileName()] and [getLineNumber()] show it;
    [None] is [null] or [undefined]. *)
Record CallSite : Type := Frame {
  getFileName : option string;
  getLineNumber : option Z
}.

(** The value of the global hook [Error.prepareStackTrace]. *)
Inductive Hook : Type :=
| HookUnset                      (* undefined *)
| HookInstalled (id : nat)       (* a function some other module installed *)
| HookRawFrames.                 (* the resolver's own (err, stack) => stack *)

(** What capturing the live call stack gives: an exception at
    [new Error()], an exception when [err.stack] is read, or the frames,
    innermost first. *)
Inductive Capture : Type :=
| NewErrorThrows (e : exn)
| StackReadThrows (e : exn)
| Frames (frames : list CallSite).

(** One call on the winston logger: [logger.log(level, message, meta)];
    [logger.info(m, meta)] is the call at level ["info"], and so on. *)
Record LogCall : Type := Call {
  level : value;
  message : value;
  meta : obj
}.

Inductive ConsoleEntry : Type :=
| ConsoleError (text : string) (e : exn)
| ConsoleLog (text : string) (v : value).

Record World : Type := MkWorld {
  cwd : string;                  (* process.cwd() *)
  module_filename : string;      (* __filename of logger.js *)
  prepareStackTrace : Hook;      (* Error.prepareStackTrace *)
  liveStack : Capture;           (* the call stack at the capture point *)
  globals : obj;                 (* the properties of the global object *)
  loggerThrows : option exn;     (* the exception a logger call raises *)
  emitted : list LogCall;        (* the logger calls made so far *)
  console : list ConsoleEntry    (* console.error / console.log so far *)
}.

Inductive Res (A : Type) : Type :=
| Ok (a : A)
| Threw (e : exn).
Arguments Ok {A} a.
Arguments Threw {A} e.

(** A computation returns or throws, and leaves a world either way. *)
Definition M (A : Type) : Type := World -> Res A * World.

Definition ret {A} (a : A) : M A := fun w => (Ok a, w).

Definition bind {A B} (c : M A) (k : A -> M B) : M B :=
  fun w =>
    match c w with
    | (Ok a, w') => k a w'
    | (Threw e, w') => (Threw e, w')
    end.

Definition throw {A} (e : exn) : M A := fun w => (Threw e, w).

(** [try { body } catch (e) { handler e }]. *)
Definition try_catch {A} (body : M A) (handler : exn -> M A) : M A :=
  fun w =>
    match body w with
    | (Ok a, w') => (Ok a, w')
    | (Threw e, w') => handler e w'
    end.

Declare Scope js_scope.
Delimit Scope js_scope with js.
Notation "x <- c ;; k" := (bind c (fun x => k))
  (at level 61, c at next level, right associativity) : js_scope.
Notation "c ;; k" := (bind c (fun _ => k))
  (at level 61, right associativity) : js_scope.
Local Open Scope js_scope.

Definition process_cwd : M string := fun w => (Ok (cwd w), w).
Definition this_filename : M string := fun w => (Ok (module_filename w), w).

Definition read_hook : M Hook := fun w => (Ok (prepareStackTrace w), w).

Definition write_hook (h : Hook) : M unit :=
  fun w =>
    (Ok tt,
     MkWorld (cwd w) (module_filename w) h (liveStack w) (globals w)
             (loggerThrows w) (emitted w) (console w)).

(** [new Error()]. *)
Definition new_Error : M unit :=
  fun w =>
    match liveStack w with
    | NewErrorThrows e => (Threw e, w)
    | _ => (Ok tt, w)
    end.

(** [err.stack], read while the raw-frames hook is installed. *)
Definition read_stack : M (list CallSite) :=
  fun w =>
    match liveStack w with
    | NewErrorThrows e | StackReadThrows e => (Threw e, w)
    | Frames fs => (Ok fs, w)
    end.

(** The world with one more logger call recorded. *)
Definition emit (c : LogCall) (w : World) : World :=
  MkWorld (cwd w) (module_filename w) (prepareStackTrace w) (liveStack w)
          (globals w) (loggerThrows w) (emitted w ++ [c]) (console w).

(** [logger.log(level, message, meta)]. *)
Definition logger_log (lvl msg : value) (m : obj) : M unit :=
  fun w =>
    match loggerThrows w with
    | Some e => (Threw e, w)
    | None => (Ok tt, emit (Call lvl msg m) w)
    end.

Definition console_put (entry : ConsoleEntry) : M unit :=
  fun w =>
    (Ok tt,
     MkWorld (cwd w) (module_filename w) (prepareStackTrace w)
             (liveStack w) (globals w) (loggerThrows w)
             (emitted w) (console w ++ [entry])).

(** An identifier bound in no enclosing scope of the module resolves on
    the global object, and throws when it is not there either. *)
Definition global_ident (x : string) : M value :=
  fun w =>
    match lookup x (globals w) with
    | Some v => (Ok v, w)
    | None => (Threw (ReferenceError x), w)
    end.

(** [o.k] on an object: [undefined] when [k] is not a property. *)
Definition field (o : obj) (k : string) : value :=
  match lookup k o with
  | Some x => x
  | None => VUndefined
  end.

(** The value of the property [k] of a value that can be read from, for
    the property names the module reads (none of them an index or a
    prototype method): an object has its properties, a string its
    [length], an [Error] its [name], [message] and [stack]; anything else
    is [undefined]. *)
Definition read (v : value) (k : string) : value :=
  match v with
  | VObj props => field props k
  | VStr s => if String.eqb k "length" then VNum (Js.lengthZ s) else VUndefined
  | VError name message stack =>
      if String.eqb k "name" then name
      else if String.eqb k "message" then message
      else if String.eqb k "stack" then stack
      else VUndefined
  | _ => VUndefined
  end.

(** [v.k]: a property read; it throws on [undefined] and [null]. *)
Definition get (v : value) (k : string) : M value :=
  match v with
  | VUndefined | VNull => throw (TypeError ("Cannot read properties: " ++ k))
  | _ => ret (read v k)
  end.

(** [v?.k]: [undefined] on [undefined] and [null], the property
    otherwise. *)
Definition opt_read (v : value) (k : string) : value :=
  match v with
  | VUndefined | VNull => VUndefined
  | _ => read v k
  end.

Definition get_opt (v : value) (k : string) : M value := ret (opt_read v k).

(** [v.toString()]. *)
Definition toString_method (v : value) : M string :=
  match v with
  | VUndefined | VNull => throw (TypeError "Cannot read properties: toString")
  | _ => ret (toStr v)
  end.

(* ===================================================================== *)
(** ** getCallerInfo *)
(* ===================================================================== *)

Record Location : Type := Loc {
  file : string;
  line : Z
}.

Definition unknown : Location := Loc "unknown" 0.

(** [stack[i]]: [undefined] outside the array. *)
Definition frame_at (stack : list CallSite) (i : Z) : option CallSite :=
  if i <? 0 then None else nth_error stack (Z.to_nat i).

(** The test [shouldSkip] of the resolver's loop. *)
Definition shouldSkip (this_file filename relativePath : string) : bool :=
  Js.includes relativePath "node_modules" ||
  Js.includes relativePath "logger.js" ||
  Js.includes filename "winston" ||
  Js.includes filename "daily-rotate-file" ||
  Js.startsWith relativePath ".." ||
  String.eqb filename this_file ||
  String.eqb relativePath "" ||
  String.eqb relativePath ".".

(** The loop [for (let i = skipFrames; i < stack.length; i++)], with
    [callerfile] and [callerline] as its result; [fuel] bounds the number
    of iterations. A frame [stack[i]] that is [undefined] makes
    [caller.getFileName()] throw. *)
Fixpoint scan (fuel : nat) (wd this_file : string) (stack : list CallSite)
         (i : Z) : Res (string * option Z) :=
  match fuel with
  | O => Ok ("unknown", Some 0)
  | S fuel' =>
      if i <? Z.of_nat (List.length stack) then
        match frame_at stack i with
        | None => Threw (TypeError "Cannot read properties: getFileName")
        | Some caller =>
            match getFileName caller with
            | None => scan fuel' wd this_file stack (i + 1)
            | Some filename =>
                if String.eqb filename "" then
                  scan fuel' wd this_file stack (i + 1)
                else
                  let relativePath := Path.relative wd wd filename in
                  if negb (shouldSkip this_file filename relativePath)
                     && negb (String.eqb relativePath "")
                  then Ok (filename, getLineNumber caller)
                  else scan fuel' wd this_file stack (i + 1)
            end
        end
      else Ok ("unknown", Some 0)
  end.

(** Iterations the loop can make from [skipFrames]. *)
Definition scan_fuel (stack : list CallSite) (skipFrames : Z) : nat :=
  S (Z.to_nat (Z.of_nat (List.length stack) - skipFrames)).

Definition lift {A} (r : Res A) : M A := fun w => (r, w).

Definition getCallerInfo (skipFrames : Z) : M Location :=
  originalFunc <- read_hook ;;
  found <- try_catch
    (new_Error ;;
     write_hook HookRawFrames ;;
     stack <- read_stack ;;
     wd <- process_cwd ;;
     this_file <- this_filename ;;
     lift (scan (scan_fuel stack skipFrames) wd this_file stack skipFrames))
    (fun _ => ret ("unknown", Some 0)) ;;
  write_hook originalFunc ;;
  wd <- process_cwd ;;
  let relativePath :=
    if String.eqb (fst found) "unknown" then "unknown"
    else Path.relative wd wd (fst found) in
  ret (Loc relativePath
           match snd found with Some n => n | None => 0 end).

(** [`${caller.file}:${caller.line}`]. *)
Definition caller_label (c : Location) : string :=
  file c ++ ":" ++ Js.ofZ (line c).

(* ===================================================================== *)
(** ** getErrorLocation *)
(* ===================================================================== *)

Import Regex.

(** Concatenation of a list of patterns. *)
Definition cat (rs : list re) : re := fold_right Seq (Lit "") rs.

(** [/(?:at .+? \()?([^()]+\.js):(\d+)(?::\d+)?\)?/] *)
Definition frame_pattern : re :=
  cat [ Opt (cat [Lit "at "; PlusLazy Dot; Lit " ("]);
        Group 1 (cat [Plus (NoneOf ["("%char; ")"%char] false); Lit ".js"]);
        Lit ":";
        Group 2 (Plus Digit);
        Opt (cat [Lit ":"; Plus Digit]);
        Opt (Lit ")") ].

(** [/([^\\\/\s]+\.js):(\d+)/] *)
Definition bare_pattern : re :=
  cat [ Group 1 (cat [Plus (NoneOf ["\"%char; "/"%char] true); Lit ".js"]);
        Lit ":";
        Group 2 (Plus Digit) ].

(** [line.match(frame) || line.match(bare)]. *)
Definition match_line (l : string) : option found :=
  match exec frame_pattern l with
  | Some m => Some m
  | None => exec bare_pattern l
  end.

(** [match[i]]. *)
Definition group (i : nat) (m : found) : string :=
  match cap i (groups m) with
  | Some s => s
  | None => ""
  end.

(** The loop [for (const line of stackLines)]: [Some] at its [return],
    [None] when it falls through. *)
Fixpoint scan_lines (wd : string) (stackLines : list string)
  : option Location :=
  match stackLines with
  | [] => None
  | l :: rest =>
      match match_line l with
      | Some m =>
          let fullPath := group 1 m in
          let lineNumber := Js.parseInt (group 2 m) in
          if negb (Js.includes fullPath "node_modules") then
            let relativePath :=
              if Path.isAbsolute fullPath then Path.relative wd wd fullPath
              else fullPath in
            Some (Loc (Js.replaceAllChar "\"%char "/"%char relativePath)
                      lineNumber)
          else scan_lines wd rest
      | None => scan_lines wd rest
      end
  end.

Definition LF : ascii := "010"%char.

(** [stack.split('\n')]: only a string has the method. *)
Definition split_lines (stack : value) : M (list string) :=
  match stack with
  | VStr s => ret (Js.split LF s)
  | _ => throw (TypeError "error.stack.split is not a function")
  end.

Definition getErrorLocation (error : value) : M Location :=
  if negb (truthy error) then ret unknown
  else
    stack <- get error "stack" ;;
    if negb (truthy stack) then ret unknown
    else
      r <- try_catch
             (stackLines <- split_lines stack ;;
              wd <- process_cwd ;;
              ret (scan_lines wd stackLines))
             (fun _ => ret None) ;;
      ret match r with Some l => l | None => unknown end.

(* ===================================================================== *)
(** ** The public logging operations *)
(* ===================================================================== *)

Definition empty_object : value := VObj [].

(** [v > n] for a number literal [n]. *)
Definition gt (v : value) (n : Z) : bool :=
  match toNum v with
  | Some x => n <? x
  | None => false
  end.

(** [v.substring(0, n)]: only a string has the method. *)
Definition substring_method (v : value) (n : nat) : M string :=
  match v with
  | VStr s => ret (Js.take n s)
  | _ => throw (TypeError "message.substring is not a function")
  end.

(** [v.trim()]: only a string has the method. *)
Definition trim_method (v : value) : M string :=
  match v with
  | VStr s => ret (Js.trim s)
  | _ => throw (TypeError "message.trim is not a function")
  end.

Definition logAction (action details level : value) : M unit :=
  let details := default details empty_object in
  let level := default level (VStr "info") in
  try_catch
    (caller <- getCallerInfo 2 ;;
     logger_log level action
       (assign "caller" (VStr (caller_label caller)) (spread details [])))
    (fun error =>
       console_put
         (ConsoleError ("Error logging action " ++ toStr action ++ ":") error) ;;
       console_put
         (ConsoleLog ("Fallback log - " ++ toStr action ++ ":") details)).

Definition logUserMessage (user message userState : value) : M unit :=
  let userState := default userState VNull in
  caller <- getCallerInfo 2 ;;
  u <- get user "username" ;;
  username <- (if truthy u then ret ("@" ++ toStr u)
               else (i <- get user "id" ;; ret ("ID:" ++ toStr i))) ;;
  fn <- get user "first_name" ;;
  let firstName := or_else fn (VStr "") in
  ln <- get user "last_name" ;;
  let lastName := or_else ln (VStr "") in
  let fullName := Js.trim (toStr firstName ++ " " ++ toStr lastName) in
  userId <- get user "id" ;;
  uname <- get user "username" ;;
  len <- get message "length" ;;
  msg <- (if gt len 500
          then (head <- substring_method message 500 ;;
                ret (VStr (head ++ "...")))
          else ret message) ;;
  let logData :=
    [ ("userId", userId);
      ("username", uname);
      ("fullName", or_else (VStr fullName) VNull);
      ("message", msg);
      ("caller", VStr (caller_label caller)) ] in
  logData <-
    (if truthy userState then
       current <- get userState "current" ;;
       let logData := assign "userState" (or_else current userState) logData in
       data <- get userState "data" ;;
       if truthy data && (0 <? Z.of_nat (List.length (keys (own_props data))))
       then ret (assign "stateData" data logData)
       else ret logData
     else ret logData) ;;
  logger_log (VStr "info") (VStr "user_message") logData.

Definition logUserAction (action ctx details : value) : M unit :=
  let ctx := default ctx empty_object in
  let details := default details empty_object in
  caller <- getCallerInfo 2 ;;
  from <- get ctx "from" ;;
  userId <- get_opt from "id" ;;
  from' <- get ctx "from" ;;
  username <- get_opt from' "username" ;;
  userState <- get ctx "userState" ;;
  user <- get ctx "user" ;;
  let logData :=
    assign "caller" (VStr (caller_label caller))
      (spread user
         (spread userState
            (spread details [("userId", userId); ("username", username)]))) in
  logger_log (VStr "info") action logData.

Definition logError (error ctx meta : value) : M unit :=
  let ctx := default ctx empty_object in
  let meta := default meta empty_object in
  match error with
  | VError _ _ _ =>
      errorLocation <- getErrorLocation error ;;
      caller <-
        (if negb (String.eqb (file errorLocation) "unknown")
         then ret (caller_label errorLocation)
         else (callerInfo <- getCallerInfo 2 ;;
               ret (caller_label callerInfo))) ;;
      msg <- get error "message" ;;
      stack <- get error "stack" ;;
      errorName <- get error "name" ;;
      context <- global_ident "context" ;;
      userState <- get ctx "userState" ;;
      user <- get ctx "user" ;;
      logger_log (VStr "error") msg
        (spread user
           (spread userState
              (assign "caller" (VStr caller)
                 (spread context
                    [("stack", stack); ("errorName", errorName)]))))
  | _ =>
      callerInfo <- getCallerInfo 2 ;;
      text <- toString_method error ;;
      userState <- get ctx "userState" ;;
      user <- get ctx "user" ;;
      logger_log (VStr "error") (VStr text)
        (assign "caller" (VStr (caller_label callerInfo))
           (spread meta (spread user (spread userState []))))
  end.

Definition logInfo (msg ctx meta : value) : M unit :=
  let ctx := default ctx empty_object in
  let meta := default meta empty_object in
  caller <- getCallerInfo 2 ;;
  userState <- get ctx "userState" ;;
  user <- get ctx "user" ;;
  logger_log (VStr "info") msg
    (assign "caller" (VStr (caller_label caller))
       (spread meta (spread user (spread userState [])))).

Definition logWarn (msg ctx meta : value) : M unit :=
  let ctx := default ctx empty_object in
  let meta := default meta empty_object in
  caller <- getCallerInfo 2 ;;
  userState <- get ctx "userState" ;;
  user <- get ctx "user" ;;
  logger_log (VStr "warn") msg
    (assign "caller" (VStr (caller_label caller))
       (spread meta (spread user (spread userState [])))).

Definition logDebug (msg ctx meta : value) : M unit :=
  let ctx := default ctx empty_object in
  let meta := default meta empty_object in
  caller <- getCallerInfo 2 ;;
  userState <- get ctx "userState" ;;
  user <- get ctx "user" ;;
  logger_log (VStr "debug") msg
    (assign "caller" (VStr (caller_label caller))
       (spread meta (spread user (spread userState [])))).

Definition logWithCaller (level msg customCaller meta : value) : M unit :=
  let meta := default meta empty_object in
  logger_log level msg (assign "caller" customCaller (spread meta [])).

(** [stream.write]. *)
Definition stream_write (msg : value) : M unit :=
  text <- trim_method msg ;;
  logger_log (VStr "info") (VStr text) [("caller", VStr "http/morgan")].

(* ===================================================================== *)
(** ** Timestamps *)
(* ===================================================================== *)

Module Clock.

(** A [Date] is its time value: milliseconds since the epoch, UTC. The
    host time zone is a fixed offset: [tzOffset] is what
    [getTimezoneOffset()] returns, minutes to add to local time to reach
    UTC (so [-300] on a host at UTC+5). *)

Definition msPerDay : Z := 86400000.

(** Year, month and day of a day number counted from 1970-01-01, in the
    proleptic Gregorian calendar. *)
Definition civil (days : Z) : Z * Z * Z :=
  let z := days + 719468 in
  let era := z / 146097 in
  let doe := z - era * 146097 in
  let yoe := (doe - doe / 1460 + doe / 36524 - doe / 146096) / 365 in
  let doy := doe - (365 * yoe + yoe / 4 - yoe / 100) in
  let mp := (5 * doy + 2) / 153 in
  let d := doy - (153 * mp + 2) / 5 + 1 in
  let m := if mp <? 10 then mp + 3 else mp - 9 in
  let y := yoe + era * 400 + (if m <=? 2 then 1 else 0) in
  (y, m, d).

Fixpoint zeros (n : nat) : string :=
  match n with
  | O => ""
  | S n' => String "0"%char (zeros n')
  end.

(** A non-negative number in decimal, zero-padded on the left to [width]. *)
Definition pad (width : nat) (n : Z) : string :=
  let s := Js.ofZ n in
  zeros (width - String.length s) ++ s.

(** The UTC fields of a time value. *)
Record fields : Type := Fields {
  year : Z; month : Z; day : Z;
  hours : Z; minutes : Z; seconds : Z; millis : Z
}.

Definition utc_fields (t : Z) : fields :=
  let '(y, m, d) := civil (t / msPerDay) in
  let r := t mod msPerDay in
  Fields y m d (r / 3600000) ((r / 60000) mod 60) ((r / 1000) mod 60)
         (r mod 1000).

(** The fields of a time value in the host's local time. *)
Definition local_fields (tzOffset t : Z) : fields :=
  utc_fields (t - tzOffset * 60000).

(** A time value is a valid date within 8.64e15 ms of the epoch. *)
Definition valid (t : Z) : bool := Z.abs t <=? 8640000000000000.

Definition iso_year (y : Z) : string :=
  if (0 <=? y) && (y <=? 9999) then pad 4 y
  else (if y <? 0 then "-" else "+") ++ pad 6 (Z.abs y).

(** [d.toISOString()]: ["YYYY-MM-DDTHH:mm:ss.sssZ"] from the UTC fields;
    [None] is the [RangeError] of an invalid date. *)
Definition toISOString (t : Z) : option string :=
  if valid t then
    let f := utc_fields t in
    Some (iso_year (year f) ++ "-" ++ pad 2 (month f) ++ "-" ++ pad 2 (day f)
          ++ "T" ++ pad 2 (hours f) ++ ":" ++ pad 2 (minutes f) ++ ":"
          ++ pad 2 (seconds f) ++ "." ++ pad 3 (millis f) ++ "Z")
  else None.

(** [d.toLocaleString('en-GB', { hour12: false, year: 'numeric', month:
    '2-digit', ... })]: ["DD/MM/YYYY, HH:MM:SS"] from the local fields. *)
Definition toLocaleString_enGB (tzOffset t : Z) : string :=
  if valid t then
    let f := local_fields tzOffset t in
    pad 2 (day f) ++ "/" ++ pad 2 (month f) ++ "/" ++ Js.ofZ (year f)
    ++ ", " ++ pad 2 (hours f) ++ ":" ++ pad 2 (minutes f) ++ ":"
    ++ pad 2 (seconds f)
  else "Invalid Date".

(** [/\..+/] *)
Definition fraction_pattern : Regex.re :=
  Regex.Seq (Regex.Lit ".") (Regex.Plus Regex.Dot).

(** [/(\d+)\/(\d+)\/(\d+),/] *)
Definition dmy_pattern : Regex.re :=
  cat [ Regex.Group 1 (Regex.Plus Regex.Digit); Regex.Lit "/";
        Regex.Group 2 (Regex.Plus Regex.Digit); Regex.Lit "/";
        Regex.Group 3 (Regex.Plus Regex.Digit); Regex.Lit "," ].

Definition capture (i : nat) (c : Regex.caps) : string :=
  match Regex.cap i c with
  | Some s => s
  | None => ""
  end.

(** The [format] function of the timestamp in [logFormat], at the instant
    [now] on a host whose [getTimezoneOffset()] is [tzOffset]. *)
Definition file_timestamp (now tzOffset : Z) : option string :=
  let utc := now + tzOffset * 60000 in
  let tashkentTime := utc + 5 * 3600000 in
  match toISOString tashkentTime with
  | Some iso =>
      Some (Regex.replace fraction_pattern (fun _ => "")
              (Js.replaceFirst "T" " " iso))
  | None => None
  end.

(** The [format] function of the timestamp in [consoleFormat]. *)
Definition console_timestamp (now tzOffset : Z) : string :=
  let utc := now + tzOffset * 60000 in
  let tashkentTime := utc + 5 * 3600000 in
  Regex.replace dmy_pattern
    (fun c => capture 3 c ++ "-" ++ capture 2 c ++ "-" ++ capture 1 c)
    (toLocaleString_enGB tzOffset tashkentTime).

End Clock.

(* ===================================================================== *)
(** ** Specification-side definitions *)
(* ===================================================================== *)

(** A frame the resolver's loop stops at: the conjunction of the tests the
    loop body makes on one frame. *)
Definition qualifies (wd this_file : string) (f : CallSite) : bool :=
  match getFileName f with
  | None => false
  | Some filename =>
      negb (String.eqb filename "") &&
      negb (shouldSkip this_file filename (Path.relative wd wd filename)) &&
      negb (String.eqb (Path.relative wd wd filename) "")
  end.

(** The location reported for a frame: its path relative to the project
    root, and its line number, [0] when it has none. *)
Definition location_of (wd : string) (f : CallSite) : Location :=
  Loc (Path.relative wd wd
         match getFileName f with Some s => s | None => "" end)
      match getLineNumber f with Some n => n | None => 0 end.

(** The resolver as the frame list describes it: the first qualifying
    frame after the skipped ones. *)
Definition first_qualifying (wd this_file : string) (stack : list CallSite)
           (skipFrames : Z) : Location :=
  match find (qualifies wd this_file) (skipn (Z.to_nat skipFrames) stack) with
  | Some f => location_of wd f
  | None => unknown
  end.

(** The four conditions of the resolver as the specification words them:
    a resolvable file path, not under a dependency directory, not part of
    the logging module, not relativised outside the project root. *)
Definition spec_qualifies (wd this_file : string) (f : CallSite) : bool :=
  match getFileName f with
  | None => false
  | Some filename =>
      let rel := Path.relative wd wd filename in
      negb (String.eqb filename "") &&
      negb (Js.includes rel "node_modules") &&
      negb (Js.includes rel "logger.js" || String.eqb filename this_file) &&
      negb (Js.startsWith rel "..")
  end.

Definition spec_resolve (wd this_file : string) (stack : list CallSite)
           (skipFrames : Z) : Location :=
  match find (spec_qualifies wd this_file)
             (skipn (Z.to_nat skipFrames) stack) with
  | Some f => location_of wd f
  | None => unknown
  end.

(** The location a call of the resolver yields in a world. *)
Definition resolved (skipFrames : Z) (w : World) : Location :=
  match fst (getCallerInfo skipFrames w) with
  | Ok l => l
  | Threw _ => unknown
  end.

Ltac run_M :=
  unfold get_opt in *;
  unfold bind, try_catch, process_cwd, this_filename, global_ident,
    console_put, get, toString_method, split_lines, substring_method,
    trim_method in *;
  unfold ret, throw, lift in *.

(** The location a call of the extractor yields in a world. *)
Definition extracted (error : value) (w : World) : Location :=
  match fst (getErrorLocation error w) with
  | Ok l => l
  | Threw _ => unknown
  end.


(** Case analysis on the tests a computation still branches on. *)
Ltac split_ifs :=
  repeat (cbv beta iota zeta;
          match goal with
          | |- context [if ?b then _ else _] => destruct b eqn:?
          end).

(** The value [logUserMessage] puts in the [message] field for a text. *)
Definition truncated (text : string) : string :=
  if 500 <? Js.lengthZ text then Js.take 500 text ++ "..." else text.

Fixpoint all_space (s : string) : bool :=
  match s with
  | EmptyString => true
  | String c s' => Js.is_space c && all_space s'
  end.

(** Neither the first nor the last character is white space. *)
Definition clean_ends (t : string) : Prop :=
  (forall c r, t = String c r -> Js.is_space c = false)
  /\ (forall r c, t = r ++ String c "" -> Js.is_space c = false).

(** The value of [k] in the first of the sources that has it: the sources
    are listed from the one that wins to the one that yields. *)
Fixpoint first_of (k : string) (sources : list obj) : option value :=
  match sources with
  | [] => None
  | s :: rest =>
      match lookup k s with
      | Some x => Some x
      | None => first_of k rest
      end
  end.

(** A record merges [sources] under the caller label: its property names
    are distinct, [caller] occurs once and holds the computed label, and
    every other property comes from the first source that has it. *)
Definition merges (sources : list obj) (c : Location) (record : obj) : Prop :=
  NoDup (keys record)
  /\ count_occ string_dec (keys record) "caller" = 1%nat
  /\ lookup "caller" record = Some (VStr (caller_label c))
  /\ forall k, k <> "caller" -> lookup k record = first_of k sources.

(** An operation returns normally having made exactly one logger call, at
    level [lvl] with message [msg] and a record satisfying [P]. *)
Definition logs (op : M unit) (w : World) (lvl msg : value)
           (P : obj -> Prop) : Prop :=
  exists record,
    op w = (Ok tt, emit (Call lvl msg record) w) /\ P record.

(** The process of the bot at the call [logError(new Error(...))] in
    app/index.js: the global object carries [logger] and [i18n], and no
    [context]. *)
Definition bot_world : World :=
  MkWorld "/project" "/project/app/logger.js" HookUnset
    (Frames [Frame (Some "/project/app/logger.js") (Some 23);
             Frame (Some "/project/app/logger.js") (Some 343);
             Frame (Some "/project/app/index.js") (Some 19)])
    [("logger", VObj []); ("i18n", VObj [])] None [] [].

Definition missing_env_error : value :=
  VError (VStr "Error")
    (VStr "Missing required environment variables: BOT_TOKEN")
    (VStr ("Error: Missing required environment variables: BOT_TOKEN"
           ++ String LF
              "    at Object.<anonymous> (/project/app/index.js:19:29)")).

(* ===================================================================== *)
(** ** The formats of the two sinks *)
(* ===================================================================== *)



(** The format [addCallerInfo]: an [info] that has no truthy [caller]
    gets the one the resolver finds five frames up. *)
Definition addCallerInfo (info : obj) : M obj :=
  if negb (truthy (field info "caller")) then
    caller <- getCallerInfo 5 ;;
    ret (assign "caller" (VStr (caller_label caller)) info)
  else ret info.

(** [delete o.k]. *)
Definition delete (k : string) (o : obj) : obj :=
  filter (fun kv => negb (String.eqb (fst kv) k)) o.

(** The rest of a destructuring [{ k1, ..., kn, ...rest }]: the properties
    of [o] not named in [ks], in order. *)
Definition rest_without (ks : list string) (o : obj) : obj :=
  filter (fun kv => negb (existsb (String.eqb (fst kv)) ks)) o.

(** [const cleanMeta = { ...meta }; delete cleanMeta.caller;] of the file
    format, [meta] being the rest after [timestamp], [level], [message],
    [caller] and [stack]. *)
Definition file_cleanMeta (info : obj) : obj :=
  delete "caller"
    (spread (VObj (rest_without
                     ["timestamp"; "level"; "message"; "caller"; "stack"]
                     info)) []).

(** The same of the console format, whose destructuring does not name
    [stack]. *)
Definition console_cleanMeta (info : obj) : obj :=
  delete "caller"
    (spread (VObj (rest_without
                     ["timestamp"; "level"; "message"; "caller"] info)) []).



Section Formats.

(** [JSON.stringify(o)] and [JSON.stringify(o, null, 2)]. *)
Variable JSON_stringify : obj -> string.
Variable JSON_stringify_pretty : obj -> string.



End Formats.

(* ===================================================================== *)
(** ** The retry strategy of the Redis client (app/index.js) *)
(* ===================================================================== *)

(** The [options] the client hands to [retry_strategy]: the last error,
    the time spent retrying in milliseconds, the attempt number. *)
Record RetryOptions : Type := RetryOpts {
  retry_error : value;
  total_retry_time : Z;
  attempt : Z
}.

(** What the strategy returns: an [Error] (with its message), [undefined],
    or the delay before the next attempt in milliseconds. *)
Inductive RetryDecision : Type :=
| GiveUp (what : string)
| StopRetrying
| RetryAfter (ms : Z).

(** [v === s] for a string literal [s]. *)
Definition is_string (v : value) (s : string) : bool :=
  match v with
  | VStr x => String.eqb x s
  | _ => false
  end.

Definition retry_strategy (options : RetryOptions) : M RetryDecision :=
  refused <-
    (if truthy (retry_error options)
     then (code <- get (retry_error options) "code" ;;
           ret (is_string code "ECONNREFUSED"))
     else ret false) ;;
  if refused : bool then
    logError (VStr "Redis connection refused") VUndefined VUndefined ;;
    ret (GiveUp "Redis connection refused")
  else if 1000 * 60 * 60 <? total_retry_time options then
    logError (VStr "Redis retry time exhausted") VUndefined VUndefined ;;
    ret (GiveUp "Retry time exhausted")
  else if 10 <? attempt options then
    logError (VStr "Redis max retry attempts reached") VUndefined VUndefined ;;
    ret StopRetrying
  else ret (RetryAfter (Z.min (attempt options * 50) 3000)).

(* ===================================================================== *)
(** ** Effect footprints *)
(* ===================================================================== *)

(** A computation that leaves the world as it found it. *)
Definition silent {A} (m : M A) : Prop := forall w, snd (m w) = w.

(** An operation that either throws with the world untouched, or returns
    having made exactly one logger call and nothing else. *)
Definition all_or_nothing (m : M unit) : Prop :=
  forall w,
    (exists e, m w = (Threw e, w)) \/ (exists c, m w = (Ok tt, emit c w)).

(* ===================================================================== *)
(** ** The record of logUserMessage, as a value *)
(* ===================================================================== *)

(** A value a property can be read from: anything but [undefined] and
    [null]. *)
Definition readable (v : value) : bool :=
  match v with
  | VUndefined | VNull => false
  | _ => true
  end.

Definition is_text (v : value) : bool :=
  match v with
  | VStr _ => true
  | _ => false
  end.

(** The texts [logUserMessage] can take: readable, and a string when the
    [length] is above 500 (only a string has [substring]). *)
Definition message_ok (msg : value) : bool :=
  readable msg && (negb (gt (read msg "length") 500) || is_text msg).

(** The [message] field. *)
Definition message_field (msg : value) : value :=
  match msg with
  | VStr s => VStr (truncated s)
  | _ => msg
  end.

(** The [fullName] field: first and last name joined and trimmed, [null]
    when nothing is left. *)
Definition full_name (user : value) : value :=
  or_else
    (VStr (Js.trim (toStr (or_else (read user "first_name") (VStr ""))
                    ++ " "
                    ++ toStr (or_else (read user "last_name") (VStr "")))))
    VNull.

(** The fields a user state adds to the record. *)
Definition state_fields (userState : value) (logData : obj) : obj :=
  if truthy userState then
    let logData :=
      assign "userState" (or_else (read userState "current") userState)
             logData in
    if truthy (read userState "data")
       && (0 <? Z.of_nat (List.length (keys (own_props (read userState "data")))))
    then assign "stateData" (read userState "data") logData
    else logData
  else logData.

Definition user_message_record (user msg userState : value) (c : Location)
  : obj :=
  state_fields (default userState VNull)
    [ ("userId", read user "id");
      ("username", read user "username");
      ("fullName", full_name user);
      ("message", message_field msg);
      ("caller", VStr (caller_label c)) ].

(* ===================================================================== *)
(** ** The Redis service (app/index.js, class RedisService) *)
(* ===================================================================== *)

(** What a method of the service can catch: an exception of the runtime
    or of the logger, or an [Error] object with its message (the one the
    service throws itself, and the rejections of the client). *)
Inductive thrown : Type :=
| Native (e : exn)
| ErrorObject (text : string).

(** The caught value, as it is handed to [logError]: an [Error] instance
    in both cases. *)
Definition thrown_value (t : thrown) : value :=
  match t with
  | Native (TypeError what) => VError (VStr "TypeError") (VStr what) VUndefined
  | Native (ReferenceError x) =>
      VError (VStr "ReferenceError") (VStr x) VUndefined
  | Native (RangeError what) =>
      VError (VStr "RangeError") (VStr what) VUndefined
  | Native (SinkError what) => VError (VStr "Error") (VStr what) VUndefined
  | ErrorObject text => VError (VStr "Error") (VStr text) VUndefined
  end.

Inductive Outcome (A : Type) : Type :=
| Fulfilled (a : A)
| Rejected (t : thrown).
Arguments Fulfilled {A} a.
Arguments Rejected {A} t.

Section RedisService.

(** The client of the redis package is outside the repository: its state
    and its calls are parameters, a call giving the outcome of the
    awaited promise and the next state of the client. So are
    [JSON.stringify] and [JSON.parse]. *)
Variable Client : Type.
Variable client_isReady : Client -> value.
Variable client_get : value -> Client -> Outcome value * Client.
Variable client_setEx : value -> value -> value -> Client -> Outcome unit * Client.
Variable client_del : value -> Client -> Outcome value * Client.
Variable JSON_stringify : value -> value.
Variable JSON_parse : value -> Outcome value.

(** The service in its process: the world of the logger, [this.client]
    ([None] is [null]), [this.isConnected], and the instant [new Date()]
    reads. One method runs at a time. *)
Record Service : Type := MkService {
  world : World;
  client : option Client;
  isConnected : bool;
  clock : Z
}.

(** An asynchronous method: the outcome of the promise it returns, and
    the service it leaves. *)
Definition R (A : Type) : Type := Service -> Outcome A * Service.

Definition retR {A} (a : A) : R A := fun s => (Fulfilled a, s).

Definition bindR {A B} (c : R A) (k : A -> R B) : R B :=
  fun s =>
    match c s with
    | (Fulfilled a, s') => k a s'
    | (Rejected t, s') => (Rejected t, s')
    end.

Definition throwR {A} (t : thrown) : R A := fun s => (Rejected t, s).

Definition try_catchR {A} (body : R A) (handler : thrown -> R A) : R A :=
  fun s =>
    match body s with
    | (Fulfilled a, s') => (Fulfilled a, s')
    | (Rejected t, s') => handler t s'
    end.

Notation "x <~ c ;; k" := (bindR c (fun x => k))
  (at level 61, c at next level, right associativity).
Notation "c ~;; k" := (bindR c (fun _ => k))
  (at level 61, right associativity).

(** A call of the logging module, run in the world of the service. *)
Definition in_world {A} (m : M A) : R A :=
  fun s =>
    match m (world s) with
    | (Ok a, w') =>
        (Fulfilled a, MkService w' (client s) (isConnected s) (clock s))
    | (Threw e, w') =>
        (Rejected (Native e),
         MkService w' (client s) (isConnected s) (clock s))
    end.

(** [await this.client.op(...)]: a [TypeError] when the client is [null]. *)
Definition on_client {A} (op : Client -> Outcome A * Client) : R A :=
  fun s =>
    match client s with
    | None =>
        (Rejected (Native (TypeError "Cannot read properties of null")), s)
    | Some c =>
        let '(r, c') := op c in
        (r, MkService (world s) (Some c') (isConnected s) (clock s))
    end.

(** [new Date().toISOString()]. *)
Definition now_iso : R string :=
  fun s =>
    match Clock.toISOString (clock s) with
    | Some t => (Fulfilled t, s)
    | None => (Rejected (Native (RangeError "Invalid time value")), s)
    end.

Definition of_outcome {A} (r : Outcome A) : R A := fun s => (r, s).

(** [isReady()]: [this.isConnected && this.client && this.client.isReady]. *)
Definition isReady : R value :=
  fun s =>
    (Fulfilled
       (if isConnected s then
          match client s with
          | None => VNull
          | Some c => client_isReady c
          end
        else VBool false), s).

(** [o[k] = v] in strict code: a property of an object is set; on a
    primitive the assignment throws, on [undefined] and [null] as well.
    An [Error] instance takes [name], [message] and [stack]. *)
Definition set_prop (o : value) (k : string) (v : value) : R value :=
  match o with
  | VObj props => retR (VObj (assign k v props))
  | VError name message stack =>
      retR (if String.eqb k "name" then VError v message stack
            else if String.eqb k "message" then VError name v stack
            else if String.eqb k "stack" then VError name message v
            else o)
  | _ => throwR (Native (TypeError ("Cannot create property " ++ k)))
  end.

Definition setUserState (userId state ttl : value) : R value :=
  let ttl := default ttl (VNum 86400) in
  try_catchR
    (ready <~ isReady ;;
     if negb (truthy ready) then throwR (ErrorObject "Redis not connected")
     else
       let key := "user_state:" ++ toStr userId in
       iso <~ now_iso ;;
       let stateData := assign "updatedAt" (VStr iso) (spread state []) in
       on_client (client_setEx (VStr key) ttl
                               (JSON_stringify (VObj stateData))) ~;;
       current <~ in_world (get state "current") ;;
       in_world (logInfo (VStr "User state updated")
                         (VObj [("userId", userId); ("state", current)])
                         VUndefined) ~;;
       retR (VBool true))
    (fun error =>
       in_world (logError (VStr "Failed to set user state:")
                          (thrown_value error) VUndefined) ~;;
       retR (VBool false)).

Definition getUserState (userId : value) : R value :=
  try_catchR
    (ready <~ isReady ;;
     if negb (truthy ready) then retR VNull
     else
       let key := "user_state:" ++ toStr userId in
       stateJson <~ on_client (client_get (VStr key)) ;;
       if negb (truthy stateJson) then retR VNull
       else
         state <~ of_outcome (JSON_parse stateJson) ;;
         retR state)
    (fun error =>
       in_world (logError (VStr "Failed to get user state:")
                          (thrown_value error) VUndefined) ~;;
       retR VNull).

Definition deleteUserState (userId : value) : R value :=
  try_catchR
    (ready <~ isReady ;;
     if negb (truthy ready) then retR (VBool false)
     else
       let key := "user_state:" ++ toStr userId in
       result <~ on_client (client_del (VStr key)) ;;
       in_world (logInfo (VStr "User state deleted")
                         (VObj [("userId", userId)]) VUndefined) ~;;
       retR (VBool (gt result 0)))
    (fun error =>
       in_world (logError (VStr "Failed to delete user state:")
                          (thrown_value error) VUndefined) ~;;
       retR (VBool false)).

Definition updateUserStateField (userId fld val : value) : R value :=
  try_catchR
    (currentState <~ getUserState userId ;;
     if negb (truthy currentState) then retR (VBool false)
     else
       currentState <~ set_prop currentState (toStr fld) val ;;
       iso <~ now_iso ;;
       currentState <~ set_prop currentState "updatedAt" (VStr iso) ;;
       setUserState userId currentState VUndefined)
    (fun error =>
       in_world (logError (VStr "Failed to update user state field:")
                          (thrown_value error) VUndefined) ~;;
       retR (VBool false)).

Definition setCache (key val ttl : value) : R value :=
  let ttl := default ttl (VNum 3600) in
  try_catchR
    (ready <~ isReady ;;
     if negb (truthy ready) then retR (VBool false)
     else
       let serializedValue :=
         if is_text val then val else JSON_stringify val in
       on_client (client_setEx key ttl serializedValue) ~;;
       retR (VBool true))
    (fun error =>
       in_world (logError (VStr "Failed to set cache:")
                          (thrown_value error) VUndefined) ~;;
       retR (VBool false)).

Definition getCache (key parseJson : value) : R value :=
  let parseJson := default parseJson (VBool true) in
  try_catchR
    (ready <~ isReady ;;
     if negb (truthy ready) then retR VNull
     else
       val <~ on_client (client_get key) ;;
       if negb (truthy val) then retR VNull
       else if truthy parseJson then of_outcome (JSON_parse val)
       else retR val)
    (fun error =>
       in_world (logError (VStr "Failed to get cache:")
                          (thrown_value error) VUndefined) ~;;
       retR VNull).

End RedisService.

Arguments MkService {Client} world client isConnected clock.
Arguments world {Client} s.
Arguments client {Client} s.
Arguments isConnected {Client} s.
Arguments clock {Client} s.

(** A service that is ready: connected, with a client whose [isReady] is
    truthy. *)
Definition service_ready {Client : Type} (client_isReady : Client -> value)
           (s : Service Client) : bool :=
  isConnected s
  && match client s with
     | None => false
     | Some c => truthy (client_isReady c)
     end.

(** An in-memory client for concrete runs: the keys with their texts;
    [get] gives [null] for a missing key, [del] the number of keys
    removed. *)
Definition store : Type := list (string * value).

Definition store_get (key : value) (c : store) : Outcome value * store :=
  (Fulfilled match lookup (toStr key) c with
             | Some v => v
             | None => VNull
             end, c).

Definition store_setEx (key ttl payload : value) (c : store)
  : Outcome unit * store :=
  (Fulfilled tt, assign (toStr key) payload c).

Definition store_del (key : value) (c : store) : Outcome value * store :=
  (Fulfilled (VNum (match lookup (toStr key) c with
                    | Some _ => 1
                    | None => 0
                    end)),
   delete (toStr key) c).

(** The service with its world replaced. *)
Definition with_world {Client : Type} (w : World) (s : Service Client)
  : Service Client :=
  MkService w (client s) (isConnected s) (clock s).

(** The service with its client replaced. *)
Definition with_client {Client : Type} (c : Client) (s : Service Client)
  : Service Client :=
  MkService (world s) (Some c) (isConnected s) (clock s).

(** The service after a caught failure was logged under [text]: one
    record at level error whose only field is the caller. *)
Definition failure_logged {Client : Type} (text : string)
           (s : Service Client) : Service Client :=
  with_world
    (emit (Call (VStr "error") (VStr text)
                [("caller", VStr (caller_label (resolved 2 (world s))))])
          (world s)) s.

(** A computation of the logging module, and a method of the service,
    that leave the logger as willing to accept calls as they found it. *)
Definition logger_stable {A} (m : M A) : Prop :=
  forall w, loggerThrows (snd (m w)) = loggerThrows w.

Definition keeps_logger {Client A : Type} (m : R Client A) : Prop :=
  forall s, loggerThrows (world (snd (m s))) = loggerThrows (world s).

(** The first test of the retry strategy:
    [options.error && options.error.code === 'ECONNREFUSED']. *)
Definition connection_refused (options : RetryOptions) : bool :=
  truthy (retry_error options)
  && is_string (read (retry_error options) "code") "ECONNREFUSED".

(** The user state as [logUserMessage] sees it, and whether it carries
    auxiliary data: a truthy state whose [data] is truthy and has at
    least one property. *)
Definition has_state_data (userState : value) : bool :=
  truthy userState
  && truthy (read userState "data")
  && (0 <? Z.of_nat (List.length (keys (own_props (read userState "data"))))).

(* ===================================================================== *)
(** ** The model on concrete inputs *)
(* ===================================================================== *)

(** The frame pattern on the three line shapes the source lists. *)
Example match_line_frame :
  option_map (fun m => (group 1 m, group 2 m))
    (match_line "    at Object.<anonymous> (C:\path\to\file.js:136:81)")
  = Some ("C:\path\to\file.js", "136").
Proof. vm_compute. reflexivity. Qed.

Example match_line_module_load :
  option_map (fun m => (group 1 m, group 2 m))
    (match_line "    at Function.Module._load (file.js:123:45)")
  = Some ("file.js", "123").
Proof. vm_compute. reflexivity. Qed.

Example match_line_bare :
  option_map (fun m => (group 1 m, group 2 m))
    (match_line "C:\path\to\file.js:136")
  = Some ("C:\path\to\file.js", "136").
Proof. vm_compute. reflexivity. Qed.

Example match_line_message : match_line "Error: x" = None.
Proof. vm_compute. reflexivity. Qed.

(** A frame without a function name: the indentation and "at" are part
    of what the first group captures. *)
Example match_line_anonymous :
  option_map (fun m => (group 1 m, group 2 m))
    (match_line "    at /project/app/x.js:10:5")
  = Some ("    at /project/app/x.js", "10").
Proof. vm_compute. reflexivity. Qed.

Example relative_inside :
  Path.relative "/project" "/project" "/project/app/handlers/x.js"
  = "app/handlers/x.js".
Proof. vm_compute. reflexivity. Qed.

Example relative_outside :
  Path.relative "/project" "/project" "/usr/lib/node/x.js"
  = "../usr/lib/node/x.js".
Proof. vm_compute. reflexivity. Qed.

Example relative_root : Path.relative "/project" "/project" "/project/" = "".
Proof. vm_compute. reflexivity. Qed.

Example relative_internal :
  Path.relative "/project" "/project" "node:internal/modules/cjs/loader"
  = "node:internal/modules/cjs/loader".
Proof. vm_compute. reflexivity. Qed.

Example trim_both_ends :
  Js.trim (" " ++ String LF "GET  / " ++ String LF "") = "GET  /".
Proof. vm_compute. reflexivity. Qed.

Example iso_leap_day :
  Clock.toISOString 1709251199999 = Some "2024-02-29T23:59:59.999Z".
Proof. vm_compute. reflexivity. Qed.

Example iso_before_epoch :
  Clock.toISOString (-1) = Some "1969-12-31T23:59:59.999Z".
Proof. vm_compute. reflexivity. Qed.

Example locale_en_GB :
  Clock.toLocaleString_enGB (-300) 1704067200000 = "01/01/2024, 05:00:00".
Proof. vm_compute. reflexivity. Qed.

(** A text that is a number has no [length] above 500 and is logged as it
    is. *)
Example logUserMessage_number_text :
  emitted (snd (logUserMessage (VObj [("id", VNum 7)]) (VNum 42) VUndefined
                               (MkWorld "/project" "/project/app/logger.js"
                                  HookUnset (Frames []) [] None [] [])))
  = [Call (VStr "info") (VStr "user_message")
          [("userId", VNum 7); ("username", VUndefined);
           ("fullName", VNull); ("message", VNum 42);
           ("caller", VStr "unknown:0")]].
Proof. vm_compute. reflexivity. Qed.

(* ===================================================================== *)
(** ** The caller resolver *)
(* ===================================================================== *)

(** The resolver never throws and leaves the world as it found it. *)
Lemma getCallerInfo_run (skipFrames : Z) (w : World) :
  getCallerInfo skipFrames w = (Ok (resolved skipFrames w), w).
Proof.
  unfold resolved.
  destruct w as [wd tf h ls g lt em co].
  unfold getCallerInfo, bind, try_catch, read_hook, new_Error, write_hook,
    read_stack, process_cwd, this_filename, lift, ret; cbn -[scan].
  destruct ls as [e | e | fs]; cbn -[scan]; try reflexivity.
  destruct (scan (scan_fuel fs skipFrames) wd tf fs skipFrames);
    reflexivity.
Qed.

Lemma nth_error_skipn {A} (l : list A) (n : nat) (x : A) :
  nth_error l n = Some x -> skipn n l = x :: skipn (S n) l.
Proof.
  revert l; induction n as [| n IH]; intros [| y l] H; simpl in *;
    try discriminate.
  - now inversion H.
  - now apply IH.
Qed.

(** With enough fuel the loop is a search of the frames from [n] on. *)
Lemma scan_find (wd tf : string) (stack : list CallSite) :
  forall (fuel n : nat),
    (List.length stack - n < fuel)%nat ->
    scan fuel wd tf stack (Z.of_nat n) =
    Ok match find (qualifies wd tf) (skipn n stack) with
       | Some f => (match getFileName f with Some s => s | None => "" end,
                    getLineNumber f)
       | None => ("unknown", Some 0)
       end.
Proof.
  induction fuel as [| fuel IH]; intros n Hfuel; [lia |].
  simpl scan.
  destruct (Z.of_nat n <? Z.of_nat (List.length stack)) eqn:Hlt.
  - apply Z.ltb_lt in Hlt.
    unfold frame_at.
    replace (Z.of_nat n <? 0) with false by (symmetry; apply Z.ltb_ge; lia).
    rewrite Nat2Z.id.
    destruct (nth_error stack n) as [c |] eqn:Hn.
    + rewrite (nth_error_skipn _ _ _ Hn). cbn [find].
      replace (Z.of_nat n + 1) with (Z.of_nat (S n)) by lia.
      unfold qualifies at 1.
      destruct (getFileName c) as [fn |] eqn:Hfn.
      * destruct (String.eqb fn "") eqn:He; cbn [negb andb].
        -- apply IH; lia.
        -- destruct (negb (shouldSkip tf fn (Path.relative wd wd fn))
                     && negb (String.eqb (Path.relative wd wd fn) ""))
             eqn:Hq.
           ++ now rewrite Hfn.
           ++ apply IH; lia.
      * apply IH; lia.
    + apply nth_error_None in Hn. lia.
  - apply Z.ltb_ge in Hlt.
    rewrite skipn_all2 by lia. reflexivity.
Qed.

(** A negative start index reads [stack[i]] outside the array: the loop
    throws at its first iteration. *)
Lemma scan_negative (wd tf : string) (stack : list CallSite) (i : Z) :
  i < 0 ->
  exists e, scan (scan_fuel stack i) wd tf stack i = Threw e.
Proof.
  intros Hi. unfold scan_fuel. simpl.
  replace (i <? Z.of_nat (List.length stack)) with true
    by (symmetry; apply Z.ltb_lt; lia).
  unfold frame_at.
  replace (i <? 0) with true by (symmetry; apply Z.ltb_lt; lia).
  eauto.
Qed.

Lemma normalize_snoc (s : string) (segs : list string) :
  String.eqb s "." = false -> String.eqb s ".." = false ->
  forall acc,
    Path.normalize acc (segs ++ [s])%list
    = (Path.normalize acc segs ++ [s])%list.
Proof.
  intros H1 H2.
  induction segs as [| x segs IH]; intros acc; simpl.
  - now rewrite H1, H2.
  - destruct (String.eqb x "."); [apply IH |].
    destruct (String.eqb x ".."); apply IH.
Qed.

Lemma strip_common_snoc (l : list string) (s : string) :
  Path.strip_common l (l ++ [s])%list = ([], [s]).
Proof.
  induction l as [| x l IH]; simpl; [reflexivity |].
  now rewrite String.eqb_refl.
Qed.

(** Under an absolute working directory the relative path of the bare name
    ["unknown"] is that name. *)
Lemma relative_unknown (wd : string) :
  Path.isAbsolute wd = true -> Path.relative wd wd "unknown" = "unknown".
Proof.
  intros Habs. unfold Path.relative.
  destruct wd as [| c wd']; [discriminate |].
  assert (Hc : c = "/"%char).
  { pose proof Habs as H. unfold Path.isAbsolute in H.
    cbn -[Ascii.eqb] in H.
    apply andb_prop in H. destruct H as [Hc _].
    apply Ascii.eqb_eq in Hc. now subst. }
  subst c.
  replace (String.eqb (String "/" wd') "unknown") with false by reflexivity.
  unfold Path.resolve. rewrite Habs.
  replace (Path.isAbsolute "unknown") with false by reflexivity.
  replace (Path.segments "unknown") with ["unknown"] by reflexivity.
  rewrite normalize_snoc by reflexivity.
  rewrite strip_common_snoc. reflexivity.
Qed.

(** On a captured frame list and a non-negative [skipFrames], the resolver
    returns the first qualifying frame after the skipped ones. *)
Lemma getCallerInfo_frames (w : World) (stack : list CallSite) (skip : Z) :
  liveStack w = Frames stack ->
  Path.isAbsolute (cwd w) = true ->
  0 <= skip ->
  resolved skip w = first_qualifying (cwd w) (module_filename w) stack skip.
Proof.
  intros Hls Habs Hskip.
  unfold resolved, first_qualifying.
  destruct w as [wd tf h ls g lt em co]; simpl in *; subst ls.
  unfold getCallerInfo, bind, try_catch, read_hook, new_Error, write_hook,
    read_stack, process_cwd, this_filename, lift, ret; cbn -[scan].
  rewrite <- (Z2Nat.id skip) at 2 by lia.
  rewrite scan_find by (unfold scan_fuel; lia).
  destruct (find (qualifies wd tf) (skipn (Z.to_nat skip) stack))
    as [f |] eqn:Hf; simpl; [| reflexivity].
  unfold location_of.
  destruct (String.eqb
              match getFileName f with Some s => s | None => "" end
              "unknown") eqn:He; [| reflexivity].
  apply String.eqb_eq in He. rewrite He.
  now rewrite relative_unknown.
Qed.

(** A negative [skipFrames] ends in the [catch] block: the sentinel. *)
Lemma getCallerInfo_negative (w : World) (stack : list CallSite) (skip : Z) :
  liveStack w = Frames stack -> skip < 0 -> resolved skip w = unknown.
Proof.
  intros Hls Hskip. unfold resolved.
  destruct w as [wd tf h ls g lt em co]; simpl in *; subst ls.
  unfold getCallerInfo, bind, try_catch, read_hook, new_Error, write_hook,
    read_stack, process_cwd, this_filename, lift, ret; cbn -[scan].
  destruct (scan_negative wd tf stack skip Hskip) as [e He].
  rewrite He. reflexivity.
Qed.

(** An exception while the stack is captured ends in the [catch] block. *)
Lemma getCallerInfo_capture_throws (w : World) (e : exn) (skip : Z) :
  liveStack w = NewErrorThrows e \/ liveStack w = StackReadThrows e ->
  resolved skip w = unknown.
Proof.
  intros Hls. unfold resolved.
  destruct w as [wd tf h ls g lt em co]; simpl in *.
  destruct Hls; subst ls; reflexivity.
Qed.

Lemma find_none_skipn {A} (p : A -> bool) (l : list A) (n : nat) :
  (forall x, In x l -> p x = false) -> find p (skipn n l) = None.
Proof.
  intros H.
  destruct (find p (skipn n l)) as [x |] eqn:Hf; [| reflexivity].
  apply find_some in Hf. destruct Hf as [Hin Hp].
  assert (Hin' : In x l).
  { rewrite <- (firstn_skipn n l). apply in_or_app. now right. }
  rewrite (H x Hin') in Hp. discriminate.
Qed.

(** C7: for every execution of the caller resolver -- a frame resolved, no
    qualifying frame, or an exception thrown while the stack is captured
    -- the resolver returns normally and the global hook
    [Error.prepareStackTrace] holds its value from before the call. *)
Theorem getCallerInfo_restores_prepareStackTrace :
  forall (skipFrames : Z) (w : World),
    prepareStackTrace (snd (getCallerInfo skipFrames w)) = prepareStackTrace w
    /\ exists loc, fst (getCallerInfo skipFrames w) = Ok loc.
Proof.
  intros skipFrames w. rewrite getCallerInfo_run. simpl. eauto.
Qed.

(** The three kinds of execution, on a hook another module installed: the
    hook is back in each. *)
Example getCallerInfo_hook_cases :
  let resolving :=
    MkWorld "/project" "/project/app/logger.js" (HookInstalled 1)
      (Frames [Frame (Some "/project/app/index.js") (Some 29)])
      [] None [] [] in
  let nothing :=
    MkWorld "/project" "/project/app/logger.js" (HookInstalled 1)
      (Frames [Frame (Some "/project/node_modules/a/b.js") (Some 3)])
      [] None [] [] in
  let throwing :=
    MkWorld "/project" "/project/app/logger.js" (HookInstalled 1)
      (StackReadThrows (RangeError "Maximum call stack size exceeded"))
      [] None [] [] in
  getCallerInfo 0 resolving = (Ok (Loc "app/index.js" 29), resolving) /\
  getCallerInfo 0 nothing = (Ok unknown, nothing) /\
  getCallerInfo 0 throwing = (Ok unknown, throwing).
Proof. repeat split; vm_compute; reflexivity. Qed.

(** C3, as stated, fails: in a project that lives under a directory whose
    name contains "winston", the application frame after the two skipped
    wrappers meets the four stated conditions, yet the resolver passes
    over it and returns the sentinel. *)
Lemma getCallerInfo_spec_counterexample :
  let loggerWrapperA := Frame (Some "/home/winston/bot/app/logger.js") (Some 23) in
  let loggerWrapperB := Frame (Some "/home/winston/bot/app/logger.js") (Some 373) in
  let appModuleX := Frame (Some "/home/winston/bot/app/handlers/start.js") (Some 12) in
  let dependencyModuleY :=
    Frame (Some "/home/winston/bot/node_modules/telegraf/lib/composer.js") (Some 5) in
  let stack := [loggerWrapperA; loggerWrapperB; appModuleX; dependencyModuleY] in
  let w := MkWorld "/home/winston/bot" "/home/winston/bot/app/logger.js"
             HookUnset (Frames stack) [] None [] [] in
  spec_resolve (cwd w) (module_filename w) stack 2
    = Loc "app/handlers/start.js" 12
  /\ fst (getCallerInfo 2 w) = Ok unknown
  /\ fst (getCallerInfo 2 w)
     <> Ok (spec_resolve (cwd w) (module_filename w) stack 2).
Proof.
  cbv zeta. split; [| split].
  - vm_compute; reflexivity.
  - vm_compute; reflexivity.
  - vm_compute. discriminate.
Qed.

(** C3, amended: on a captured frame list, under an absolute working
    directory, the resolver called with a non-negative [skipFrames] skips
    that many frames and returns the location of the first remaining
    frame that [qualifies]: a non-empty file name that contains neither
    "winston" nor "daily-rotate-file" and is not the logger's own file,
    and whose path relative to the project root is not empty, is not ".",
    does not start with ".." and contains neither "node_modules" nor
    "logger.js". On the stack [A; B; X; Y] with [skipFrames = 2] and such
    an [X] it returns the location of [X]; when no frame qualifies it
    returns the sentinel, whatever [skipFrames] is. *)
Theorem getCallerInfo_first_qualifying_frame :
  forall (w : World) (stack : list CallSite),
    liveStack w = Frames stack ->
    Path.isAbsolute (cwd w) = true ->
    (forall skip, 0 <= skip ->
       getCallerInfo skip w
       = (Ok (first_qualifying (cwd w) (module_filename w) stack skip), w))
    /\ (forall A B X Y,
          stack = [A; B; X; Y] ->
          qualifies (cwd w) (module_filename w) X = true ->
          getCallerInfo 2 w = (Ok (location_of (cwd w) X), w))
    /\ (forall skip,
          (forall f, In f stack ->
                     qualifies (cwd w) (module_filename w) f = false) ->
          getCallerInfo skip w = (Ok unknown, w)).
Proof.
  intros w stack Hls Habs.
  assert (Hgen : forall skip, 0 <= skip ->
            getCallerInfo skip w
            = (Ok (first_qualifying (cwd w) (module_filename w) stack skip), w)).
  { intros skip Hskip. rewrite getCallerInfo_run.
    now rewrite (getCallerInfo_frames w stack skip). }
  split; [exact Hgen | split].
  - intros A B X Y -> HX.
    rewrite Hgen by lia.
    unfold first_qualifying.
    change (Z.to_nat 2) with 2%nat. cbn [skipn find].
    now rewrite HX.
  - intros skip Hnone.
    destruct (Z.lt_ge_cases skip 0) as [Hneg | Hpos].
    + rewrite getCallerInfo_run.
      now rewrite (getCallerInfo_negative w stack skip).
    + rewrite Hgen by lia. unfold first_qualifying.
      now rewrite find_none_skipn.
Qed.

(** The resolver on the stack of the example, under /project. *)
Lemma getCallerInfo_first_qualifying_frame_witness :
  let loggerWrapperA := Frame (Some "/project/app/logger.js") (Some 23) in
  let loggerWrapperB := Frame (Some "/project/app/logger.js") (Some 373) in
  let appModuleX := Frame (Some "/project/app/handlers/start.js") (Some 12) in
  let dependencyModuleY :=
    Frame (Some "/project/node_modules/telegraf/lib/composer.js") (Some 5) in
  let stack := [loggerWrapperA; loggerWrapperB; appModuleX; dependencyModuleY] in
  let w := MkWorld "/project" "/project/app/logger.js"
             HookUnset (Frames stack) [] None [] [] in
  getCallerInfo 2 w = (Ok (Loc "app/handlers/start.js" 12), w)
  /\ getCallerInfo 3 w = (Ok unknown, w).
Proof.
  cbv zeta.
  pose proof (getCallerInfo_first_qualifying_frame
    (MkWorld "/project" "/project/app/logger.js" HookUnset
       (Frames [Frame (Some "/project/app/logger.js") (Some 23);
                Frame (Some "/project/app/logger.js") (Some 373);
                Frame (Some "/project/app/handlers/start.js") (Some 12);
                Frame (Some "/project/node_modules/telegraf/lib/composer.js")
                      (Some 5)])
       [] None [] [])
    _ eq_refl eq_refl) as [Hgen [Hex _]].
  split.
  - exact (Hex _ _ _ _ eq_refl eq_refl).
  - exact (Hgen 3 ltac:(lia)).
Defined.

(* ===================================================================== *)
(** ** The error-location extractor *)
(* ===================================================================== *)


(** Reading a property of a truthy value does not throw. *)
Lemma get_truthy (v : value) (k : string) :
  truthy v = true -> get v k = ret (read v k).
Proof. destruct v; try reflexivity; discriminate. Qed.

(** The extractor never throws and never changes the world. *)
Lemma getErrorLocation_pure (e : value) (w : World) :
  exists l, getErrorLocation e w = (Ok l, w).
Proof.
  unfold getErrorLocation.
  destruct (truthy e) eqn:Ht; cbn [negb]; [| eexists; reflexivity].
  rewrite (get_truthy e "stack" Ht). run_M.
  destruct (truthy (read e "stack")); cbn [negb]; [| eexists; reflexivity].
  destruct (read e "stack"); eexists; reflexivity.
Qed.





(* ===================================================================== *)
(** ** Objects *)
(* ===================================================================== *)

Lemma lookup_assign_eq (k : string) (v : value) (o : obj) :
  lookup k (assign k v o) = Some v.
Proof.
  induction o as [| [k' v'] o IH]; simpl.
  - now rewrite String.eqb_refl.
  - destruct (String.eqb k k') eqn:He; simpl; rewrite He; auto.
Qed.

Lemma lookup_assign_neq (k k' : string) (v : value) (o : obj) :
  k <> k' -> lookup k (assign k' v o) = lookup k o.
Proof.
  intros Hne.
  assert (Hkk : String.eqb k k' = false) by now apply String.eqb_neq.
  induction o as [| [k0 v0] o IH]; simpl.
  - now rewrite Hkk.
  - destruct (String.eqb k' k0) eqn:He; simpl.
    + apply String.eqb_eq in He. subst k0. now rewrite Hkk.
    + now rewrite IH.
Qed.

Lemma keys_assign (k : string) (v : value) (o : obj) :
  keys (assign k v o) = keys o \/ keys (assign k v o) = (keys o ++ [k])%list.
Proof.
  unfold keys.
  induction o as [| [k' v'] o IH]; simpl.
  - now right.
  - destruct (String.eqb k k') eqn:He; simpl.
    + now left.
    + destruct IH as [-> | ->]; [now left | now right].
Qed.

Lemma lookup_none (k : string) (o : obj) :
  lookup k o = None <-> ~ In k (keys o).
Proof.
  unfold keys.
  induction o as [| [k' v'] o IH]; simpl.
  - tauto.
  - destruct (String.eqb k k') eqn:He.
    + apply String.eqb_eq in He. subst. split; [discriminate | tauto].
    + apply String.eqb_neq in He. rewrite IH. split.
      * intros H [Heq | Hin]; [congruence | tauto].
      * intros H Hin. apply H. now right.
Qed.

(** Assignment keeps the property names distinct. *)
Lemma NoDup_assign (k : string) (v : value) (o : obj) :
  NoDup (keys o) -> NoDup (keys (assign k v o)).
Proof.
  unfold keys.
  induction o as [| [k' v'] o IH]; simpl; intros Hnd.
  - constructor; [tauto | constructor].
  - destruct (String.eqb k k') eqn:He; simpl; [exact Hnd |].
    inversion Hnd as [| ? ? Hnotin Hnd']; subst.
    constructor; [| now apply IH].
    apply String.eqb_neq in He.
    destruct (keys_assign k v o) as [Hk | Hk]; unfold keys in Hk; rewrite Hk.
    + exact Hnotin.
    + intros Hin. apply in_app_or in Hin.
      destruct Hin as [Hin | [Heq | []]]; [tauto | congruence].
Qed.

Lemma NoDup_spread (v : value) (acc : obj) :
  NoDup (keys acc) -> NoDup (keys (spread v acc)).
Proof.
  unfold spread. generalize (own_props v) as ps.
  intros ps; revert acc.
  induction ps as [| [k x] ps IH]; intros acc Hnd; simpl; [exact Hnd |].
  apply IH. now apply NoDup_assign.
Qed.

Lemma lookup_app (k : string) (a b : obj) :
  lookup k (a ++ b)%list
  = match lookup k a with Some x => Some x | None => lookup k b end.
Proof.
  induction a as [| [k' v'] a IH]; simpl; [reflexivity |].
  destruct (String.eqb k k'); [reflexivity | exact IH].
Qed.

(** In an object with distinct property names the order of the properties
    does not matter to a read. *)
Lemma lookup_rev (k : string) (o : obj) :
  NoDup (keys o) -> lookup k (rev o) = lookup k o.
Proof.
  unfold keys.
  induction o as [| [k' v'] o IH]; simpl; intros Hnd; [reflexivity |].
  inversion Hnd as [| ? ? Hnotin Hnd']; subst.
  rewrite lookup_app, (IH Hnd'). simpl.
  destruct (String.eqb k k') eqn:He.
  - apply String.eqb_eq in He. subst k'.
    apply (proj2 (lookup_none k o)) in Hnotin. now rewrite Hnotin.
  - now destruct (lookup k o).
Qed.

(** A spread overrides: the property of the spread value when it has one,
    that of the object under construction otherwise. *)
Lemma lookup_spread (k : string) (v : value) (acc : obj) :
  NoDup (keys (own_props v)) ->
  lookup k (spread v acc)
  = match lookup k (own_props v) with
    | Some x => Some x
    | None => lookup k acc
    end.
Proof.
  intros Hnd. rewrite <- (lookup_rev k _ Hnd).
  unfold spread. generalize (own_props v) as ps. clear Hnd.
  intros ps; revert acc.
  induction ps as [| [k' x] ps IH]; intros acc; simpl; [reflexivity |].
  rewrite IH, lookup_app. simpl.
  destruct (lookup k (rev ps)); [reflexivity |].
  destruct (String.eqb k k') eqn:He.
  - apply String.eqb_eq in He. subst k'. apply lookup_assign_eq.
  - apply String.eqb_neq in He. now apply lookup_assign_neq.
Qed.

(* ===================================================================== *)
(** ** logUserMessage *)
(* ===================================================================== *)

Lemma bind_getCallerInfo {A} (skip : Z) (k : Location -> M A) (w : World) :
  bind (getCallerInfo skip) k w = k (resolved skip w) w.
Proof. unfold bind. now rewrite getCallerInfo_run. Qed.

Lemma take_length (n : nat) (s : string) :
  (n <= String.length s)%nat -> String.length (Js.take n s) = n.
Proof.
  revert s; induction n as [| n IH]; intros [| c s] H; simpl in *;
    try reflexivity; try lia.
  f_equal. apply IH. lia.
Qed.

Lemma take_prefix (n : nat) (s : string) :
  exists rest, s = Js.take n s ++ rest.
Proof.
  revert s; induction n as [| n IH]; intros s.
  - exists s. now destruct s.
  - destruct s as [| c s]; [now exists "" |].
    destruct (IH s) as [rest Hrest]. exists rest. simpl. now f_equal.
Qed.

Lemma logger_log_ok (lvl msg : value) (m : obj) (w : World) :
  loggerThrows w = None ->
  logger_log lvl msg m w = (Ok tt, emit (Call lvl msg m) w).
Proof. intros H. unfold logger_log. now rewrite H. Qed.

(** C5: for every string text, [logUserMessage] logs, at level info, a
    record whose [message] field is the first 500 characters of the text
    followed by "..." when the text is longer than 500 characters, and the
    text itself otherwise; so 501 characters give exactly 500 characters
    and "...", and 500 or 499 characters pass unchanged. *)
Theorem logUserMessage_truncates_message :
  forall (w : World) (fields : obj) (text : string) (userState : value),
    loggerThrows w = None ->
    (exists call,
        logUserMessage (VObj fields) (VStr text) userState w
        = (Ok tt, emit call w)
        /\ level call = VStr "info"
        /\ lookup "message" (meta call) = Some (VStr (truncated text)))
    /\ ((500 < String.length text)%nat ->
        exists head rest,
          truncated text = head ++ "..." /\ text = head ++ rest
          /\ String.length head = 500%nat)
    /\ ((String.length text <= 500)%nat -> truncated text = text).
Proof.
  intros w fields text userState Hlog.
  split; [| split].
  - unfold logUserMessage. rewrite bind_getCallerInfo.
    generalize (resolved 2 w) as c. intros c.
    destruct userState as [| | b | z | s | props | n m st];
      run_M; unfold truncated;
      cbn [default truthy read gt toNum String.eqb Ascii.eqb Bool.eqb andb];
      split_ifs;
      (eexists; split;
       [apply logger_log_ok; exact Hlog | split; reflexivity]).
  - intros Hlen. unfold truncated.
    replace (500 <? Js.lengthZ text) with true
      by (symmetry; apply Z.ltb_lt; unfold Js.lengthZ; lia).
    destruct (take_prefix 500 text) as [rest Hrest].
    exists (Js.take 500 text), rest.
    repeat split; [exact Hrest | apply take_length; lia].
  - intros Hlen. unfold truncated.
    replace (500 <? Js.lengthZ text) with false
      by (symmetry; apply Z.ltb_ge; unfold Js.lengthZ; lia).
    reflexivity.
Qed.

(** A text of 501 characters. *)
Lemma logUserMessage_truncates_message_witness :
  let w := MkWorld "/project" "/project/app/logger.js" HookUnset
             (Frames [Frame (Some "/project/app/logger.js") (Some 23);
                      Frame (Some "/project/app/logger.js") (Some 225);
                      Frame (Some "/project/app/index.js") (Some 60)])
             [] None [] [] in
  let user := VObj [("id", VNum 7); ("first_name", VStr "Ada")] in
  let text := Clock.zeros 501 in
  (exists call,
      logUserMessage user (VStr text) VUndefined w = (Ok tt, emit call w)
      /\ level call = VStr "info"
      /\ lookup "message" (meta call) = Some (VStr (truncated text)))
  /\ exists head rest,
      truncated text = head ++ "..." /\ text = head ++ rest
      /\ String.length head = 500%nat.
Proof.
  cbv zeta.
  destruct (logUserMessage_truncates_message
    (MkWorld "/project" "/project/app/logger.js" HookUnset
       (Frames [Frame (Some "/project/app/logger.js") (Some 23);
                Frame (Some "/project/app/logger.js") (Some 225);
                Frame (Some "/project/app/index.js") (Some 60)])
       [] None [] [])
    [("id", VNum 7); ("first_name", VStr "Ada")]
    (Clock.zeros 501) VUndefined eq_refl) as [H1 [H2 _]].
  split; [exact H1 | apply H2; vm_compute; lia].
Defined.

(* ===================================================================== *)
(** ** The access-log stream adapter *)
(* ===================================================================== *)

Lemma trimStart_split (s : string) :
  exists lead, s = lead ++ Js.trimStart s /\ all_space lead = true.
Proof.
  induction s as [| c s IH]; simpl.
  - now exists "".
  - destruct (Js.is_space c) eqn:Hc.
    + destruct IH as [lead [Heq Hsp]].
      exists (String c lead). simpl. rewrite Hc, Hsp. split; [| reflexivity].
      now f_equal.
    + now exists "".
Qed.

Lemma trimStart_first (s : string) (c : ascii) (r : string) :
  Js.trimStart s = String c r -> Js.is_space c = false.
Proof.
  induction s as [| a s IH]; simpl; [discriminate |].
  destruct (Js.is_space a) eqn:Ha; [exact IH |].
  intros H. inversion H. now subst.
Qed.

Lemma trimEnd_split (s : string) :
  exists trail, s = Js.trimEnd s ++ trail /\ all_space trail = true.
Proof.
  induction s as [| c s IH]; simpl.
  - now exists "".
  - destruct IH as [trail [Heq Hsp]].
    destruct (Js.trimEnd s) as [| d r] eqn:Ht.
    + simpl in Heq. subst trail.
      destruct (Js.is_space c) eqn:Hc.
      * exists (String c s). simpl. now rewrite Hc, Hsp.
      * now exists s.
    + exists trail. split; [| exact Hsp]. simpl. now f_equal.
Qed.

Lemma trimEnd_first (s : string) (c : ascii) (r : string) :
  Js.trimEnd s = String c r -> exists s', s = String c s'.
Proof.
  destruct s as [| a s]; simpl; [discriminate |].
  destruct (Js.trimEnd s).
  - destruct (Js.is_space a); [discriminate |].
    intros H. inversion H. now exists s.
  - intros H. inversion H. now exists s.
Qed.

Lemma trimEnd_last (s : string) :
  forall r c, Js.trimEnd s = r ++ String c "" -> Js.is_space c = false.
Proof.
  induction s as [| a s IH]; intros r c; simpl.
  - destruct r; discriminate.
  - destruct (Js.trimEnd s) as [| d r0] eqn:Ht.
    + destruct (Js.is_space a) eqn:Ha.
      * destruct r; discriminate.
      * destruct r as [| x r]; simpl; intros H; inversion H; subst.
        -- exact Ha.
        -- destruct r; discriminate.
    + destruct r as [| x r]; simpl; intros H; inversion H; subst.
      apply (IH r c). assumption.
Qed.

(** What [trim] removes is white space at the two ends, and nothing else:
    the line is white space, then the trimmed text, then white space, and
    the trimmed text starts and ends with no white space. *)
Lemma trim_spec (s : string) :
  (exists lead trail,
      s = lead ++ Js.trim s ++ trail
      /\ all_space lead = true /\ all_space trail = true)
  /\ clean_ends (Js.trim s).
Proof.
  unfold Js.trim. split.
  - destruct (trimStart_split s) as [lead [H1 Hl]].
    destruct (trimEnd_split (Js.trimStart s)) as [trail [H2 Ht]].
    exists lead, trail. repeat split; try assumption.
    now rewrite <- H2.
  - split.
    + intros c r H.
      destruct (trimEnd_first _ _ _ H) as [s' Hs'].
      now apply (trimStart_first s c s').
    + apply trimEnd_last.
Qed.

(** C9, as stated, fails: the adapter removes the white space in front of
    the line as well. *)
Lemma stream_write_counterexample :
  let w := MkWorld "/project" "/project/app/logger.js" HookUnset
             (Frames []) [] None [] [] in
  let raw := "  GET /status 200" ++ String LF "" in
  Js.trimEnd raw = "  GET /status 200"
  /\ emitted (snd (stream_write (VStr raw) w))
     = [Call (VStr "info") (VStr "GET /status 200")
             [("caller", VStr "http/morgan")]]
  /\ emitted (snd (stream_write (VStr raw) w))
     <> [Call (VStr "info") (VStr (Js.trimEnd raw))
              [("caller", VStr "http/morgan")]].
Proof.
  cbv zeta. repeat split; try (vm_compute; reflexivity).
  vm_compute. discriminate.
Qed.

(** C9, amended: for every raw line, the adapter logs, at level info, the
    line with the white space at both its ends removed -- the characters
    between are unchanged -- in a record whose only field is the fixed
    caller label "http/morgan", whatever the live call stack is. *)
Theorem stream_write_logs_trimmed_line :
  forall (w : World) (raw : string),
    loggerThrows w = None ->
    stream_write (VStr raw) w
    = (Ok tt,
       emit (Call (VStr "info") (VStr (Js.trim raw))
                  [("caller", VStr "http/morgan")]) w)
    /\ (exists lead trail,
           raw = lead ++ Js.trim raw ++ trail
           /\ all_space lead = true /\ all_space trail = true)
    /\ clean_ends (Js.trim raw).
Proof.
  intros w raw Hlog. split; [| apply trim_spec].
  unfold stream_write. run_M. now apply logger_log_ok.
Qed.

(** An access-log line with white space at both ends. *)
Lemma stream_write_logs_trimmed_line_witness :
  let w := MkWorld "/project" "/project/app/logger.js" HookUnset
             (Frames []) [] None [] [] in
  let raw := "  GET /status 200" ++ String LF "" in
  stream_write (VStr raw) w
  = (Ok tt,
     emit (Call (VStr "info") (VStr "GET /status 200")
                [("caller", VStr "http/morgan")]) w).
Proof.
  cbv zeta.
  exact (proj1 (stream_write_logs_trimmed_line
    (MkWorld "/project" "/project/app/logger.js" HookUnset
       (Frames []) [] None [] [])
    ("  GET /status 200" ++ String LF "") eq_refl)).
Defined.

(* ===================================================================== *)
(** ** Field-merge precedence *)
(* ===================================================================== *)

Lemma own_props_default (v : value) :
  own_props (default v empty_object) = own_props v.
Proof. now destruct v. Qed.

Lemma spread_default (v : value) (acc : obj) :
  spread (default v empty_object) acc = spread v acc.
Proof. unfold spread. now rewrite own_props_default. Qed.

Lemma count_occ_once (l : list string) (x : string) :
  NoDup l -> In x l -> count_occ string_dec l x = 1%nat.
Proof.
  intros Hnd Hin. now apply (proj1 (NoDup_count_occ' string_dec l) Hnd).
Qed.

Lemma In_keys_lookup (k : string) (o : obj) (v : value) :
  lookup k o = Some v -> In k (keys o).
Proof.
  intros H. destruct (in_dec string_dec k (keys o)) as [Hin | Hnot];
    [exact Hin |].
  apply lookup_none in Hnot. congruence.
Qed.

(** The shape every operation builds: the caller label assigned over a
    chain of spreads. *)
Lemma merges_caller (sources : list obj) (c : Location) (body : obj) :
  NoDup (keys body) ->
  (forall k, k <> "caller" -> lookup k body = first_of k sources) ->
  merges sources c (assign "caller" (VStr (caller_label c)) body).
Proof.
  intros Hnd Hbody.
  assert (Hnd' : NoDup (keys (assign "caller" (VStr (caller_label c)) body)))
    by now apply NoDup_assign.
  repeat split.
  - exact Hnd'.
  - apply count_occ_once; [exact Hnd' |].
    eapply In_keys_lookup. apply lookup_assign_eq.
  - apply lookup_assign_eq.
  - intros k Hk. rewrite lookup_assign_neq by exact Hk. now apply Hbody.
Qed.

(** [{...c, ...b, ...a, caller}]: [a] over [b] over [c] over [base]. *)
Lemma merges_spreads (a b c : value) (base : obj) (l : Location) :
  NoDup (keys (own_props a)) -> NoDup (keys (own_props b)) ->
  NoDup (keys (own_props c)) -> NoDup (keys base) ->
  merges [own_props a; own_props b; own_props c; base] l
    (assign "caller" (VStr (caller_label l))
       (spread a (spread b (spread c base)))).
Proof.
  intros Ha Hb Hc Hbase. apply merges_caller.
  - now repeat apply NoDup_spread.
  - intros k _. rewrite !lookup_spread by assumption. simpl.
    destruct (lookup k (own_props a)); [reflexivity |].
    destruct (lookup k (own_props b)); [reflexivity |].
    destruct (lookup k (own_props c)); [reflexivity |].
    now destruct (lookup k base).
Qed.

(** C2, as stated, fails on [logUserAction]: [details] is spread before
    the state fields of the context, so on a collision the ambient value
    is the one in the record. *)
Lemma logUserAction_counterexample :
  let w := MkWorld "/project" "/project/app/logger.js" HookUnset
             (Frames [Frame (Some "/project/app/logger.js") (Some 23);
                      Frame (Some "/project/app/logger.js") (Some 257);
                      Frame (Some "/project/app/handlers/language.js")
                            (Some 62)])
             [] None [] [] in
  let ctx := VObj [("from", VObj [("id", VNum 7)]);
                   ("userState", VObj [("step", VStr "ambient")])] in
  let details := VObj [("step", VStr "explicit")] in
  exists record,
    logUserAction (VStr "user_changed_language") ctx details w
    = (Ok tt, emit (Call (VStr "info") (VStr "user_changed_language") record) w)
    /\ lookup "step" record = Some (VStr "ambient")
    /\ lookup "step" record <> lookup "step" (own_props details).
Proof.
  cbv zeta. eexists. split; [vm_compute; reflexivity |].
  split; [reflexivity | discriminate].
Qed.

(** C2, amended: [logInfo], [logWarn], [logDebug] and [logError] on a
    plain string merge the state fields of the context, then its user
    fields, then the explicit [meta], then the computed caller: an
    explicit value wins over an ambient one, and [caller] wins over all
    and occurs exactly once. [logUserAction] merges the identity fields
    taken from [ctx.from], then [details], then the state fields, then the
    user fields of the context, then the computed caller: [details] wins
    over the identity fields and yields to the state and user fields, and
    [caller] wins over all and occurs exactly once. *)
Theorem merge_precedence :
  forall (w : World) (ctx msg : value) (text : string) (explicit : value),
    loggerThrows w = None ->
    ctx <> VNull ->
    let c := default ctx empty_object in
    NoDup (keys (own_props explicit)) ->
    NoDup (keys (own_props (read c "userState"))) ->
    NoDup (keys (own_props (read c "user"))) ->
    let ambient_then_explicit :=
      merges [own_props explicit; own_props (read c "user");
              own_props (read c "userState"); []] (resolved 2 w) in
    logs (logInfo msg ctx explicit) w (VStr "info") msg
         ambient_then_explicit
    /\ logs (logWarn msg ctx explicit) w (VStr "warn") msg
            ambient_then_explicit
    /\ logs (logDebug msg ctx explicit) w (VStr "debug") msg
            ambient_then_explicit
    /\ logs (logError (VStr text) ctx explicit) w (VStr "error")
            (VStr text) ambient_then_explicit
    /\ logs (logUserAction msg ctx explicit) w (VStr "info") msg
            (merges [own_props (read c "user");
                     own_props (read c "userState");
                     own_props explicit;
                     [("userId", opt_read (read c "from") "id");
                      ("username", opt_read (read c "from") "username")]]
                    (resolved 2 w)).
Proof.
  intros w ctx msg text explicit Hlog Hctx c Hx Hs Hu ambient_then_explicit.
  subst ambient_then_explicit. unfold logs.
  assert (Hnil : NoDup (keys (@nil (string * value)))) by constructor.
  assert (Hget : forall k, get c k = ret (read c k)).
  { intros k. subst c. destruct ctx; try reflexivity. contradiction. }
  repeat split.
  - eexists. split.
    + unfold logInfo. cbv zeta. rewrite bind_getCallerInfo.
      fold c. rewrite !Hget. run_M. rewrite spread_default.
      now apply logger_log_ok.
    + now apply merges_spreads.
  - eexists. split.
    + unfold logWarn. cbv zeta. rewrite bind_getCallerInfo.
      fold c. rewrite !Hget. run_M. rewrite spread_default.
      now apply logger_log_ok.
    + now apply merges_spreads.
  - eexists. split.
    + unfold logDebug. cbv zeta. rewrite bind_getCallerInfo.
      fold c. rewrite !Hget. run_M. rewrite spread_default.
      now apply logger_log_ok.
    + now apply merges_spreads.
  - eexists. split.
    + unfold logError. cbv zeta. rewrite bind_getCallerInfo.
      fold c. run_M. cbn [toStr]. fold (get c "userState") (get c "user").
      rewrite !Hget. unfold ret. rewrite spread_default.
      now apply logger_log_ok.
    + now apply merges_spreads.
  - eexists. split.
    + unfold logUserAction. cbv zeta. rewrite bind_getCallerInfo.
      fold c. rewrite !Hget. run_M. rewrite spread_default.
      now apply logger_log_ok.
    + apply merges_spreads; try assumption.
      repeat constructor; simpl; intuition discriminate.
Qed.

(** A context and an explicit map that collide on [state]. *)
Lemma merge_precedence_witness :
  let w := MkWorld "/project" "/project/app/logger.js" HookUnset
             (Frames [Frame (Some "/project/app/logger.js") (Some 23);
                      Frame (Some "/project/app/logger.js") (Some 373);
                      Frame (Some "/project/app/index.js") (Some 259)])
             [] None [] [] in
  let c := [("from", VObj [("id", VNum 7)]);
            ("userState", VObj [("state", VStr "ambient")]);
            ("user", VObj [("role", VStr "student")])] in
  let explicit := VObj [("state", VStr "explicit"); ("userId", VNum 9)] in
  logs (logInfo (VStr "User state updated") (VObj c) explicit) w
       (VStr "info") (VStr "User state updated")
       (merges [own_props explicit; [("role", VStr "student")];
                [("state", VStr "ambient")]; []] (resolved 2 w))
  /\ logs (logUserAction (VStr "User state updated") (VObj c) explicit) w
          (VStr "info") (VStr "User state updated")
          (merges [[("role", VStr "student")];
                   [("state", VStr "ambient")];
                   own_props explicit;
                   [("userId", VNum 7); ("username", VUndefined)]]
                  (resolved 2 w)).
Proof.
  cbv zeta.
  assert (H1 : NoDup ["state"; "userId"])
    by (repeat constructor; simpl; intuition discriminate).
  assert (H2 : NoDup ["state"])
    by (repeat constructor; simpl; intuition discriminate).
  assert (H3 : NoDup ["role"])
    by (repeat constructor; simpl; intuition discriminate).
  destruct (merge_precedence
    (MkWorld "/project" "/project/app/logger.js" HookUnset
       (Frames [Frame (Some "/project/app/logger.js") (Some 23);
                Frame (Some "/project/app/logger.js") (Some 373);
                Frame (Some "/project/app/index.js") (Some 259)])
       [] None [] [])
    (VObj [("from", VObj [("id", VNum 7)]);
           ("userState", VObj [("state", VStr "ambient")]);
           ("user", VObj [("role", VStr "student")])])
    (VStr "User state updated") "boom"
    (VObj [("state", VStr "explicit"); ("userId", VNum 9)])
    eq_refl ltac:(discriminate) H1 H2 H3) as [Hinfo [_ [_ [_ Haction]]]].
  split; [exact Hinfo | exact Haction].
Defined.

(* ===================================================================== *)
(** ** logError *)
(* ===================================================================== *)

(** On an [Error] value, in a process whose global object has no
    [context], [logError] throws a [ReferenceError] where it spreads
    [context] into the record, and no logger call is made. *)
Lemma logError_Error_unbound_context
      (w : World) (n m st ctx meta : value) :
  lookup "context" (globals w) = None ->
  logError (VError n m st) ctx meta w = (Threw (ReferenceError "context"), w).
Proof.
  intros Hctx. unfold logError. cbv zeta.
  unfold bind at 1.
  destruct (getErrorLocation_pure (VError n m st) w) as [l ->].
  unfold bind at 1.
  destruct (negb (String.eqb (file l) "unknown")).
  - run_M. cbn [read String.eqb Ascii.eqb Bool.eqb]. now rewrite Hctx.
  - rewrite bind_getCallerInfo.
    run_M. cbn [read String.eqb Ascii.eqb Bool.eqb]. now rewrite Hctx.
Qed.

Lemma getErrorLocation_run (e : value) (w : World) :
  getErrorLocation e w = (Ok (extracted e w), w).
Proof.
  unfold extracted. destruct (getErrorLocation_pure e w) as [l ->].
  reflexivity.
Qed.

(** What the [Error] branch does in a process where [context] is bound on
    the global object: the caller is the extractor's location, and the
    resolver's only when the extractor yields the sentinel; the record
    starts from the stack text and the error name, and the fields of
    [context], of the state and of the user are spread over them. *)
Lemma logError_Error_bound_context
      (w : World) (n m st meta cv : value) (c : obj) :
  lookup "context" (globals w) = Some cv ->
  loggerThrows w = None ->
  logError (VError n m st) (VObj c) meta w
  = (Ok tt,
     emit (Call (VStr "error") m
             (spread (field c "user")
                (spread (field c "userState")
                   (assign "caller"
                      (VStr (if String.eqb
                                  (file (extracted (VError n m st) w))
                                  "unknown"
                             then caller_label (resolved 2 w)
                             else caller_label
                                    (extracted (VError n m st) w)))
                      (spread cv [("stack", st); ("errorName", n)])))))
          w).
Proof.
  intros Hctx Hlog. unfold logError. cbv zeta.
  unfold bind at 1. rewrite getErrorLocation_run.
  unfold bind at 1.
  destruct (String.eqb (file (extracted (VError n m st) w)) "unknown");
    cbn [negb].
  - rewrite bind_getCallerInfo. run_M.
    cbn [default read String.eqb Ascii.eqb Bool.eqb]. rewrite Hctx.
    now apply logger_log_ok.
  - run_M. cbn [default read String.eqb Ascii.eqb Bool.eqb]. rewrite Hctx.
    now apply logger_log_ok.
Qed.

(** C1, at the failing inputs: [logError(new Error(...))], the first call
    app/index.js makes when an environment variable is missing, raises a
    [ReferenceError] to its caller and logs nothing; [logUserMessage] on a
    text that is [undefined] raises a [TypeError] to its caller and logs
    nothing. *)
Theorem logging_operations_raise :
  logError missing_env_error VUndefined VUndefined bot_world
  = (Threw (ReferenceError "context"), bot_world)
  /\ logUserMessage (VObj [("id", VNum 7)]) VUndefined VUndefined bot_world
     = (Threw (TypeError "Cannot read properties: length"), bot_world).
Proof. split; vm_compute; reflexivity. Qed.

(** The sibling [logAction] absorbs what its body raises: when the logger
    call throws, it returns normally, with the failure and the fallback
    on the console. *)
Lemma logAction_absorbs (w : World) (action details lvl : value) :
  exists w', logAction action details lvl w = (Ok tt, w')
             /\ emitted w' = match loggerThrows w with
                             | Some _ => emitted w
                             | None => (emitted w ++
                                 [Call (default lvl (VStr "info")) action
                                    (assign "caller"
                                       (VStr (caller_label (resolved 2 w)))
                                       (spread details []))])%list
                             end.
Proof.
  unfold logAction. cbv zeta. unfold try_catch.
  rewrite bind_getCallerInfo. rewrite spread_default.
  unfold logger_log.
  destruct (loggerThrows w) as [e |]; eexists; split; reflexivity.
Qed.

(** C8, where the code departs from it: for every [Error] value, in a
    process whose global object has no [context] (as in this program),
    [logError] throws before the logger is called, so no record carrying
    the stack text and the error name is produced. *)
Theorem logError_Error_produces_no_record :
  forall (w : World) (name msg stack ctx meta : value),
    lookup "context" (globals w) = None ->
    logError (VError name msg stack) ctx meta w
    = (Threw (ReferenceError "context"), w)
    /\ emitted (snd (logError (VError name msg stack) ctx meta w))
       = emitted w.
Proof.
  intros w name msg stack ctx meta Hctx.
  rewrite (logError_Error_unbound_context w name msg stack ctx meta Hctx).
  split; reflexivity.
Qed.

(** The call of app/index.js with a context argument. *)
Lemma logError_Error_produces_no_record_witness :
  logError missing_env_error (VObj [("context", VStr "startup")]) VUndefined
           bot_world
  = (Threw (ReferenceError "context"), bot_world)
  /\ emitted (snd (logError missing_env_error
                            (VObj [("context", VStr "startup")]) VUndefined
                            bot_world))
     = emitted bot_world.
Proof.
  exact (logError_Error_produces_no_record bot_world
           (VStr "Error")
           (VStr "Missing required environment variables: BOT_TOKEN")
           (VStr ("Error: Missing required environment variables: BOT_TOKEN"
                  ++ String LF
                  "    at Object.<anonymous> (/project/app/index.js:19:29)"))
           (VObj [("context", VStr "startup")]) VUndefined eq_refl).
Defined.

(** C10: on an [Error] value the outcome of [logError] -- what it returns
    or throws, and every logger call it makes -- is the same for any two
    [meta] arguments: that branch never reads [meta]. The plain-string
    branch does: there the record changes with [meta]. *)
Theorem logError_Error_ignores_meta :
  (forall (w : World) (name msg stack ctx m1 m2 : value),
      logError (VError name msg stack) ctx m1 w
      = logError (VError name msg stack) ctx m2 w)
  /\ (exists (w : World) (text ctx m1 m2 : value),
         logError text ctx m1 w <> logError text ctx m2 w).
Proof.
  split.
  - intros w name msg stack ctx m1 m2. reflexivity.
  - exists bot_world, (VStr "Redis connection refused"), VUndefined,
      (VObj [("attempt", VNum 1)]), (VObj [("attempt", VNum 2)]).
    vm_compute. discriminate.
Qed.

(** In a process where some module has put a [context] on the global
    object, the [Error] branch does build a record, the same whatever
    [meta] is. *)
Example logError_Error_with_global_context :
  let w := MkWorld "/project" "/project/app/logger.js" HookUnset
             (Frames []) [("context", VObj [("env", VStr "test")])]
             None [] [] in
  forall meta,
    emitted (snd (logError missing_env_error VUndefined meta w))
    = [Call (VStr "error")
            (VStr "Missing required environment variables: BOT_TOKEN")
            [("stack", read missing_env_error "stack");
             ("errorName", VStr "Error");
             ("env", VStr "test");
             ("caller", VStr "app/index.js:19")]].
Proof. intros w meta. vm_compute. reflexivity. Qed.

(* ===================================================================== *)
(** ** Timestamps *)
(* ===================================================================== *)

(** The console timestamp is the wall clock at UTC+5 on every host. *)
Lemma console_timestamp_host_independent (now tz1 tz2 : Z) :
  Clock.valid (now + tz1 * 60000 + 5 * 3600000) = true ->
  Clock.valid (now + tz2 * 60000 + 5 * 3600000) = true ->
  Clock.console_timestamp now tz1 = Clock.console_timestamp now tz2.
Proof.
  intros H1 H2.
  unfold Clock.console_timestamp, Clock.toLocaleString_enGB,
    Clock.local_fields.
  rewrite H1, H2.
  replace (now + tz1 * 60000 + 5 * 3600000 - tz1 * 60000)
    with (now + 18000000) by lia.
  replace (now + tz2 * 60000 + 5 * 3600000 - tz2 * 60000)
    with (now + 18000000) by lia.
  reflexivity.
Qed.

(** The file-sink timestamp on a host whose offset is [tz] is the one a
    host at UTC gives [tz] minutes later: the host offset is added to the
    instant and never taken out again. *)
Lemma file_timestamp_shifted (now tz : Z) :
  Clock.file_timestamp now tz = Clock.file_timestamp (now + tz * 60000) 0.
Proof.
  unfold Clock.file_timestamp.
  replace (now + tz * 60000 + 0 * 60000 + 5 * 3600000)
    with (now + tz * 60000 + 5 * 3600000) by lia.
  reflexivity.
Qed.

(** C6, at the failing input: at the instant 2024-01-01T00:00:00Z the
    file-sink timestamp is "2024-01-01 05:00:00" on a host at UTC, and
    "2024-01-01 00:00:00" on a host at UTC+5 (where
    [getTimezoneOffset()] is -300), while the console timestamp is
    "2024-01-01 05:00:00" on both: the file-sink timestamp depends on the
    host time zone, and on a host away from UTC it is not the UTC+5 wall
    clock and differs from the console rendering. *)
Theorem file_timestamp_depends_on_host_zone :
  Clock.file_timestamp 1704067200000 0 = Some "2024-01-01 05:00:00"
  /\ Clock.file_timestamp 1704067200000 (-300) = Some "2024-01-01 00:00:00"
  /\ Clock.console_timestamp 1704067200000 0 = "2024-01-01 05:00:00"
  /\ Clock.console_timestamp 1704067200000 (-300) = "2024-01-01 05:00:00"
  /\ Clock.file_timestamp 1704067200000 0
     <> Clock.file_timestamp 1704067200000 (-300).
Proof.
  repeat split; try (vm_compute; reflexivity).
  vm_compute. discriminate.
Qed.

(* ===================================================================== *)
(** ** Effect footprints of the operations *)
(* ===================================================================== *)

Lemma silent_ret {A} (a : A) : silent (ret a).
Proof. intros w. reflexivity. Qed.

Lemma silent_throw {A} (e : exn) : silent (@throw A e).
Proof. intros w. reflexivity. Qed.

Lemma silent_bind {A B} (c : M A) (k : A -> M B) :
  silent c -> (forall a, silent (k a)) -> silent (bind c k).
Proof.
  intros Hc Hk w. unfold bind.
  specialize (Hc w). destruct (c w) as [[a | e] w']; simpl in Hc; subst w'.
  - apply Hk.
  - reflexivity.
Qed.

Lemma silent_get (v : value) (k : string) : silent (get v k).
Proof. destruct v; intros w; reflexivity. Qed.

Lemma silent_get_opt (v : value) (k : string) : silent (get_opt v k).
Proof. intros w. reflexivity. Qed.

Lemma silent_global_ident (x : string) : silent (global_ident x).
Proof.
  intros w. unfold global_ident. now destruct (lookup x (globals w)).
Qed.

Lemma silent_getCallerInfo (skip : Z) : silent (getCallerInfo skip).
Proof. intros w. now rewrite getCallerInfo_run. Qed.

Lemma silent_getErrorLocation (e : value) : silent (getErrorLocation e).
Proof. intros w. now rewrite getErrorLocation_run. Qed.

Lemma silent_toString_method (v : value) : silent (toString_method v).
Proof. destruct v; intros w; reflexivity. Qed.

Lemma silent_substring_method (v : value) (n : nat) :
  silent (substring_method v n).
Proof. destruct v; intros w; reflexivity. Qed.

Lemma silent_trim_method (v : value) : silent (trim_method v).
Proof. destruct v; intros w; reflexivity. Qed.

Lemma aon_bind {A} (c : M A) (k : A -> M unit) :
  silent c -> (forall a, all_or_nothing (k a)) -> all_or_nothing (bind c k).
Proof.
  intros Hc Hk w. unfold bind.
  specialize (Hc w). destruct (c w) as [[a | e] w']; simpl in Hc; subst w'.
  - apply Hk.
  - left. now exists e.
Qed.

Lemma aon_logger_log (lvl msg : value) (m : obj) :
  all_or_nothing (logger_log lvl msg m).
Proof.
  intros w. unfold logger_log. destruct (loggerThrows w) as [e |].
  - left. now exists e.
  - right. now eexists.
Qed.

(** Footprint of a computation built from the primitives above. *)
Ltac footprint :=
  repeat first
    [ apply aon_logger_log
    | apply silent_ret | apply silent_throw | apply silent_get
    | apply silent_get_opt | apply silent_global_ident
    | apply silent_getCallerInfo | apply silent_getErrorLocation
    | apply silent_toString_method | apply silent_substring_method
    | apply silent_trim_method
    | apply aon_bind; [| intros ?]
    | apply silent_bind; [| intros ?]
    | match goal with
      | |- silent (if ?b then _ else _) => destruct b
      | |- all_or_nothing (if ?b then _ else _) => destruct b
      end ].

(** Every logging operation but [logAction] is all or nothing, for every
    argument and in every world: it either throws and leaves the world --
    the hook, the logger calls made so far, the console -- exactly as it
    was, or returns having made one logger call and nothing else. *)
Theorem operations_all_or_nothing :
  (forall user msg userState, all_or_nothing (logUserMessage user msg userState))
  /\ (forall action ctx details, all_or_nothing (logUserAction action ctx details))
  /\ (forall error ctx meta, all_or_nothing (logError error ctx meta))
  /\ (forall msg ctx meta, all_or_nothing (logInfo msg ctx meta))
  /\ (forall msg ctx meta, all_or_nothing (logWarn msg ctx meta))
  /\ (forall msg ctx meta, all_or_nothing (logDebug msg ctx meta))
  /\ (forall lvl msg customCaller meta,
         all_or_nothing (logWithCaller lvl msg customCaller meta))
  /\ (forall msg, all_or_nothing (stream_write msg)).
Proof.
  repeat split; intros.
  - unfold logUserMessage. cbv zeta. footprint.
  - unfold logUserAction. cbv zeta. footprint.
  - unfold logError. cbv zeta. destruct error; footprint.
  - unfold logInfo. cbv zeta. footprint.
  - unfold logWarn. cbv zeta. footprint.
  - unfold logDebug. cbv zeta. footprint.
  - unfold logWithCaller. cbv zeta. footprint.
  - unfold stream_write. footprint.
Qed.


Lemma get_default_context (ctx : value) (k : string) :
  ctx <> VNull ->
  get (default ctx empty_object) k = ret (read (default ctx empty_object) k).
Proof. intros H. destruct ctx; try reflexivity. contradiction. Qed.

(** A context that is [undefined] is replaced by the empty object; [null]
    is not. When the logger accepts calls, [logInfo], [logWarn],
    [logDebug], [logError] on a string and [logUserAction] return normally
    (having logged) exactly when the context is not [null]; on [null]
    they raise a [TypeError]. *)
Theorem null_context_raises :
  forall (w : World) (msg meta ctx : value) (text : string),
    loggerThrows w = None ->
    ((exists c, logInfo msg ctx meta w = (Ok tt, emit c w)) <-> ctx <> VNull)
    /\ ((exists c, logWarn msg ctx meta w = (Ok tt, emit c w))
        <-> ctx <> VNull)
    /\ ((exists c, logDebug msg ctx meta w = (Ok tt, emit c w))
        <-> ctx <> VNull)
    /\ ((exists c, logError (VStr text) ctx meta w = (Ok tt, emit c w))
        <-> ctx <> VNull)
    /\ ((exists c, logUserAction msg ctx meta w = (Ok tt, emit c w))
        <-> ctx <> VNull)
    /\ (ctx = VNull ->
        (exists what, logInfo msg ctx meta w = (Threw (TypeError what), w))
        /\ (exists what,
               logWarn msg ctx meta w = (Threw (TypeError what), w))
        /\ (exists what,
               logDebug msg ctx meta w = (Threw (TypeError what), w))
        /\ (exists what,
               logError (VStr text) ctx meta w
               = (Threw (TypeError what), w))
        /\ (exists what,
               logUserAction msg ctx meta w
               = (Threw (TypeError what), w))).
Proof.
  intros w msg meta ctx text Hlog.
  repeat split.
  - intros [c Hc] ->. unfold logInfo in Hc. cbv zeta in Hc.
    rewrite bind_getCallerInfo in Hc. discriminate.
  - intros Hctx. unfold logInfo. cbv zeta. rewrite bind_getCallerInfo.
    rewrite !(get_default_context ctx _ Hctx). run_M.
    eexists. now apply logger_log_ok.
  - intros [c Hc] ->. unfold logWarn in Hc. cbv zeta in Hc.
    rewrite bind_getCallerInfo in Hc. discriminate.
  - intros Hctx. unfold logWarn. cbv zeta. rewrite bind_getCallerInfo.
    rewrite !(get_default_context ctx _ Hctx). run_M.
    eexists. now apply logger_log_ok.
  - intros [c Hc] ->. unfold logDebug in Hc. cbv zeta in Hc.
    rewrite bind_getCallerInfo in Hc. discriminate.
  - intros Hctx. unfold logDebug. cbv zeta. rewrite bind_getCallerInfo.
    rewrite !(get_default_context ctx _ Hctx). run_M.
    eexists. now apply logger_log_ok.
  - intros [c Hc] ->. unfold logError in Hc. cbv zeta in Hc.
    rewrite bind_getCallerInfo in Hc. discriminate.
  - intros Hctx. unfold logError. cbv zeta. rewrite bind_getCallerInfo.
    rewrite !(get_default_context ctx _ Hctx). run_M.
    eexists. now apply logger_log_ok.
  - intros [c Hc] ->. unfold logUserAction in Hc. cbv zeta in Hc.
    rewrite bind_getCallerInfo in Hc. discriminate.
  - intros Hctx. unfold logUserAction. cbv zeta. rewrite bind_getCallerInfo.
    rewrite !(get_default_context ctx _ Hctx). run_M.
    eexists. now apply logger_log_ok.
  - subst ctx. eexists.
    unfold logInfo. cbv zeta. rewrite bind_getCallerInfo. reflexivity.
  - subst ctx. eexists.
    unfold logWarn. cbv zeta. rewrite bind_getCallerInfo. reflexivity.
  - subst ctx. eexists.
    unfold logDebug. cbv zeta. rewrite bind_getCallerInfo. reflexivity.
  - subst ctx. eexists.
    unfold logError. cbv zeta. rewrite bind_getCallerInfo. reflexivity.
  - subst ctx. eexists.
    unfold logUserAction. cbv zeta. rewrite bind_getCallerInfo. reflexivity.
Qed.

(** A context that is [undefined] and one that is [null]. *)
Lemma null_context_raises_witness :
  (exists c, logInfo (VStr "Redis ready") VUndefined VUndefined bot_world
             = (Ok tt, emit c bot_world))
  /\ exists what,
       logInfo (VStr "Redis ready") VNull VUndefined bot_world
       = (Threw (TypeError what), bot_world).
Proof.
  destruct (null_context_raises bot_world (VStr "Redis ready") VUndefined
              VUndefined "x" eq_refl) as [[_ Hok] _].
  destruct (null_context_raises bot_world (VStr "Redis ready") VUndefined
              VNull "x" eq_refl) as [_ [_ [_ [_ [_ Hnull]]]]].
  split.
  - apply Hok. discriminate.
  - exact (proj1 (Hnull eq_refl)).
Defined.

(* ===================================================================== *)
(** ** The formats *)
(* ===================================================================== *)

Lemma caller_label_truthy (c : Location) :
  truthy (VStr (caller_label c)) = true.
Proof. unfold caller_label. now destruct (file c). Qed.

(** [addCallerInfo] never throws and changes nothing in the world. It
    leaves an [info] whose [caller] is truthy as it is -- so the caller
    computed by the logging operations, never empty, survives it -- and
    otherwise sets [caller] to the label the resolver finds five frames
    up, touching no other field. Its result always has a truthy
    [caller], and applying it again changes nothing. *)
Theorem addCallerInfo_fills_missing_caller :
  forall (info : obj) (w : World),
    exists info',
      addCallerInfo info w = (Ok info', w)
      /\ truthy (field info' "caller") = true
      /\ (truthy (field info "caller") = true -> info' = info)
      /\ (truthy (field info "caller") = false ->
          info' = assign "caller" (VStr (caller_label (resolved 5 w))) info)
      /\ (forall k, k <> "caller" -> lookup k info' = lookup k info)
      /\ addCallerInfo info' w = (Ok info', w)
      /\ (forall c body,
             addCallerInfo (assign "caller" (VStr (caller_label c)) body) w
             = (Ok (assign "caller" (VStr (caller_label c)) body), w)).
Proof.
  intros info w.
  assert (Hlabel : forall c body,
             addCallerInfo (assign "caller" (VStr (caller_label c)) body) w
             = (Ok (assign "caller" (VStr (caller_label c)) body), w)).
  { intros c body. unfold addCallerInfo, field.
    rewrite lookup_assign_eq, caller_label_truthy. reflexivity. }
  unfold addCallerInfo at 1.
  destruct (truthy (field info "caller")) eqn:Ht; cbn [negb].
  - exists info. repeat split; try assumption; try discriminate.
    unfold addCallerInfo. now rewrite Ht.
  - rewrite bind_getCallerInfo. eexists.
    split; [reflexivity |]. repeat split.
    + unfold field. rewrite lookup_assign_eq. apply caller_label_truthy.
    + discriminate.
    + intros k Hk. now apply lookup_assign_neq.
    + apply Hlabel.
    + exact Hlabel.
Qed.

Lemma assign_fresh (k : string) (v : value) (o : obj) :
  ~ In k (keys o) -> assign k v o = (o ++ [(k, v)])%list.
Proof.
  unfold keys. induction o as [| [k' v'] o IH]; simpl; intros Hk.
  - reflexivity.
  - destruct (String.eqb k k') eqn:He.
    + apply String.eqb_eq in He. subst. tauto.
    + f_equal. apply IH. tauto.
Qed.

(** Copying an object with distinct property names gives the object. *)
Lemma spread_copy (l acc : obj) :
  NoDup (keys (acc ++ l)%list) -> spread (VObj l) acc = (acc ++ l)%list.
Proof.
  unfold spread. simpl own_props. revert acc.
  induction l as [| [k v] l IH]; intros acc Hnd; simpl.
  - now rewrite app_nil_r.
  - assert (Hfresh : ~ In k (keys acc)).
    { unfold keys in *. rewrite map_app in Hnd. simpl in Hnd.
      apply NoDup_remove_2 in Hnd. intros Hin. apply Hnd.
      apply in_or_app. now left. }
    rewrite (assign_fresh k v acc Hfresh).
    rewrite IH; rewrite <- app_assoc; [reflexivity | exact Hnd].
Qed.

Lemma keys_filter (p : string -> bool) (o : obj) :
  keys (filter (fun kv => p (fst kv)) o) = filter p (keys o).
Proof.
  unfold keys. induction o as [| [k v] o IH]; simpl; [reflexivity |].
  destruct (p k); simpl; now rewrite IH.
Qed.

Lemma lookup_filter (p : string -> bool) (k : string) (o : obj) :
  lookup k (filter (fun kv => p (fst kv)) o)
  = if p k then lookup k o else None.
Proof.
  induction o as [| [k' v'] o IH]; simpl.
  - now destruct (p k).
  - destruct (p k') eqn:Hp'; simpl; destruct (String.eqb k k') eqn:He.
    + apply String.eqb_eq in He. subst. now rewrite Hp'.
    + exact IH.
    + apply String.eqb_eq in He. subst. rewrite Hp' in *. exact IH.
    + exact IH.
Qed.

Lemma filter_filter_caller (ks : list string) (o : obj) :
  In "caller" ks ->
  delete "caller" (rest_without ks o) = rest_without ks o.
Proof.
  intros Hin. unfold delete, rest_without.
  induction o as [| [k v] o IH]; simpl; [reflexivity |].
  destruct (existsb (String.eqb k) ks) eqn:Hex; simpl; [exact IH |].
  destruct (String.eqb k "caller") eqn:He; simpl.
  - apply String.eqb_eq in He. subst k.
    assert (Hc : existsb (String.eqb "caller") ks = true).
    { apply existsb_exists. exists "caller". split; [exact Hin |].
      apply String.eqb_refl. }
    congruence.
  - now rewrite IH.
Qed.

(** What the two formats serialise after the message: for an [info] with
    distinct property names, exactly the properties of [info] other than
    [timestamp], [level], [message], [caller] and -- in the file format
    only -- [stack], in their order and with their values. The copy and
    the [delete cleanMeta.caller] change nothing; the console format
    keeps [stack] among the serialised properties. *)
Theorem cleanMeta_is_the_rest :
  forall (info : obj),
    NoDup (keys info) ->
    file_cleanMeta info
    = rest_without ["timestamp"; "level"; "message"; "caller"; "stack"] info
    /\ console_cleanMeta info
       = rest_without ["timestamp"; "level"; "message"; "caller"] info
    /\ (forall k,
           lookup k (file_cleanMeta info)
           = if existsb (String.eqb k)
                  ["timestamp"; "level"; "message"; "caller"; "stack"]
             then None else lookup k info)
    /\ lookup "stack" (console_cleanMeta info) = lookup "stack" info.
Proof.
  intros info Hnd.
  assert (Hrest : forall ks,
             NoDup (keys (rest_without ks info))).
  { intros ks. unfold rest_without.
    rewrite (keys_filter (fun k => negb (existsb (String.eqb k) ks))).
    now apply NoDup_filter. }
  assert (Hfile : file_cleanMeta info
                  = rest_without
                      ["timestamp"; "level"; "message"; "caller"; "stack"]
                      info).
  { unfold file_cleanMeta. rewrite (spread_copy _ []) by apply Hrest.
    apply filter_filter_caller. simpl. tauto. }
  assert (Hconsole : console_cleanMeta info
                     = rest_without
                         ["timestamp"; "level"; "message"; "caller"] info).
  { unfold console_cleanMeta. rewrite (spread_copy _ []) by apply Hrest.
    apply filter_filter_caller. simpl. tauto. }
  repeat split; try assumption.
  - intros k. rewrite Hfile. unfold rest_without.
    rewrite (lookup_filter
               (fun k => negb (existsb (String.eqb k)
                  ["timestamp"; "level"; "message"; "caller"; "stack"]))).
    now destruct (existsb (String.eqb k)
                    ["timestamp"; "level"; "message"; "caller"; "stack"]).
  - rewrite Hconsole. unfold rest_without.
    now rewrite (lookup_filter
                   (fun k => negb (existsb (String.eqb k)
                      ["timestamp"; "level"; "message"; "caller"]))).
Qed.

(** An error record as the logger hands it to the formats. *)
Lemma cleanMeta_is_the_rest_witness :
  let info := [("service", VStr "bot"); ("level", VStr "error");
               ("message", VStr "boom"); ("stack", VStr "Error: boom");
               ("userId", VNum 7); ("caller", VStr "app/index.js:19");
               ("timestamp", VStr "2024-01-01 05:00:00")] in
  file_cleanMeta info = [("service", VStr "bot"); ("userId", VNum 7)]
  /\ console_cleanMeta info
     = [("service", VStr "bot"); ("stack", VStr "Error: boom");
        ("userId", VNum 7)].
Proof.
  cbv zeta.
  assert (Hnd : NoDup ["service"; "level"; "message"; "stack"; "userId";
                       "caller"; "timestamp"])
    by (repeat constructor; simpl; intuition discriminate).
  destruct (cleanMeta_is_the_rest
    [("service", VStr "bot"); ("level", VStr "error");
     ("message", VStr "boom"); ("stack", VStr "Error: boom");
     ("userId", VNum 7); ("caller", VStr "app/index.js:19");
     ("timestamp", VStr "2024-01-01 05:00:00")] Hnd) as [Hf [Hc _]].
  split; [exact Hf | exact Hc].
Defined.


(* ===================================================================== *)
(** ** More on the caller resolver *)
(* ===================================================================== *)

(** What the loop returns is the initial pair, or a file name that passed
    the test [shouldSkip]. *)
Lemma scan_sound (wd tf : string) (stack : list CallSite) :
  forall (fuel : nat) (i : Z) (fn : string) (ln : option Z),
    scan fuel wd tf stack i = Ok (fn, ln) ->
    (fn = "unknown" /\ ln = Some 0)
    \/ shouldSkip tf fn (Path.relative wd wd fn) = false.
Proof.
  induction fuel as [| fuel IH]; intros i fn ln H; simpl in H.
  - inversion H. now left.
  - destruct (i <? Z.of_nat (List.length stack)).
    + destruct (frame_at stack i) as [c |]; [| discriminate].
      destruct (getFileName c) as [f |]; [| now apply (IH (i + 1))].
      destruct (String.eqb f ""); [now apply (IH (i + 1)) |].
      destruct (negb (shouldSkip tf f (Path.relative wd wd f))
                && negb (String.eqb (Path.relative wd wd f) "")) eqn:Hq.
      * inversion H; subst. right.
        apply andb_prop in Hq. destruct Hq as [Hq _].
        now apply negb_true_iff in Hq.
      * now apply (IH (i + 1)).
    + inversion H. now left.
Qed.

(** Whatever the stack, the skip count and the state of the process, the
    file the resolver reports is "unknown" or a path inside the project
    that is none of the excluded ones: it does not contain "node_modules"
    or "logger.js", does not start with "..", and is neither empty nor
    ".". *)
Theorem getCallerInfo_never_reports_excluded :
  forall (skipFrames : Z) (w : World),
    let f := file (resolved skipFrames w) in
    f = "unknown"
    \/ (Js.includes f "node_modules" = false
        /\ Js.includes f "logger.js" = false
        /\ Js.startsWith f ".." = false
        /\ f <> "" /\ f <> ".").
Proof.
  intros skipFrames w. cbv zeta. unfold resolved.
  destruct w as [wd tf h ls g lt em co].
  unfold getCallerInfo, bind, try_catch, read_hook, new_Error, write_hook,
    read_stack, process_cwd, this_filename, lift, ret; cbn -[scan].
  destruct ls as [e | e | fs]; cbn -[scan]; try (now left).
  destruct (scan (scan_fuel fs skipFrames) wd tf fs skipFrames)
    as [[fn ln] | e] eqn:Hscan; cbn -[scan]; [| now left].
  destruct (String.eqb fn "unknown") eqn:Hu; [now left |].
  destruct (scan_sound wd tf fs _ _ _ _ Hscan) as [[-> _] | Hskip];
    [discriminate |].
  right. unfold shouldSkip in Hskip.
  repeat (apply orb_false_elim in Hskip; destruct Hskip as [Hskip ?]).
  repeat split; try assumption.
  - intros Heq. rewrite Heq in *. discriminate.
  - intros Heq. rewrite Heq in *. discriminate.
Qed.

(** The resolver degrades to the sentinel instead of failing: when
    [skipFrames] is negative or not below the number of frames (an empty
    stack included), and when capturing the stack throws. *)
Theorem getCallerInfo_degrades_to_sentinel :
  forall (w : World) (skipFrames : Z),
    (forall stack,
        liveStack w = Frames stack ->
        skipFrames < 0 \/ Z.of_nat (List.length stack) <= skipFrames ->
        getCallerInfo skipFrames w = (Ok unknown, w))
    /\ (forall e,
           liveStack w = NewErrorThrows e \/ liveStack w = StackReadThrows e ->
           getCallerInfo skipFrames w = (Ok unknown, w)).
Proof.
  intros w skip. split.
  - intros stack Hls [Hneg | Hbig]; rewrite getCallerInfo_run.
    + now rewrite (getCallerInfo_negative w stack skip).
    + unfold resolved.
      destruct w as [wd tf h ls g lt em co]; simpl in Hls; subst ls.
      unfold getCallerInfo, bind, try_catch, read_hook, new_Error,
        write_hook, read_stack, process_cwd, this_filename, lift, ret;
        cbn -[scan].
      unfold scan_fuel. cbn [scan].
      replace (skip <? Z.of_nat (List.length stack)) with false
        by (symmetry; apply Z.ltb_ge; lia).
      reflexivity.
  - intros e He. rewrite getCallerInfo_run.
    now rewrite (getCallerInfo_capture_throws w e skip).
Qed.

(** A skip count past the end, and a stack capture that throws. *)
Lemma getCallerInfo_degrades_to_sentinel_witness :
  getCallerInfo 7 bot_world = (Ok unknown, bot_world)
  /\ (let w := MkWorld "/project" "/project/app/logger.js" (HookInstalled 2)
                 (StackReadThrows (RangeError "stack")) [] None [] [] in
      getCallerInfo 2 w = (Ok unknown, w)).
Proof.
  split.
  - apply (proj1 (getCallerInfo_degrades_to_sentinel bot_world 7)
             _ eq_refl).
    right. vm_compute. discriminate.
  - cbv zeta.
    apply (proj2 (getCallerInfo_degrades_to_sentinel
                    (MkWorld "/project" "/project/app/logger.js"
                       (HookInstalled 2)
                       (StackReadThrows (RangeError "stack")) [] None [] [])
                    2) (RangeError "stack")).
    now right.
Defined.

(* ===================================================================== *)
(** ** More on the error-location extractor *)
(* ===================================================================== *)

(** The extractor returns the sentinel, without throwing, on every value
    it cannot read a stack text from: a falsy value, a value whose
    [stack] is missing or falsy (the empty text included), and a value
    whose [stack] is not a string. *)
Theorem getErrorLocation_without_stack_text :
  forall (e : value) (w : World),
    truthy e = false
    \/ truthy (read e "stack") = false
    \/ (forall s, read e "stack" <> VStr s) ->
    getErrorLocation e w = (Ok unknown, w).
Proof.
  intros e w H. unfold getErrorLocation.
  destruct (truthy e) eqn:Ht; cbn [negb]; [| reflexivity].
  rewrite (get_truthy e "stack" Ht). run_M.
  destruct (truthy (read e "stack")) eqn:Hs; cbn [negb]; [| reflexivity].
  destruct H as [H | [H | H]]; try discriminate.
  destruct (read e "stack") as [| | b | z | s | ps | n m st];
    try reflexivity.
  now destruct (H s).
Qed.

(** [null], an object without a stack, and a stack that is a number. *)
Lemma getErrorLocation_without_stack_text_witness :
  getErrorLocation VNull bot_world = (Ok unknown, bot_world)
  /\ getErrorLocation (VObj [("message", VStr "x")]) bot_world
     = (Ok unknown, bot_world)
  /\ getErrorLocation (VError (VStr "Error") (VStr "x") (VNum 42)) bot_world
     = (Ok unknown, bot_world).
Proof.
  split; [| split].
  - apply getErrorLocation_without_stack_text. now left.
  - apply getErrorLocation_without_stack_text. right. now left.
  - apply getErrorLocation_without_stack_text. right. right.
    intros s. discriminate.
Defined.




Lemma replaceAllChar_removes (a b : ascii) (s : string) :
  a <> b -> Js.includes (Js.replaceAllChar a b s) (String a "") = false.
Proof.
  intros Hab. induction s as [| c s IH]; [reflexivity |].
  cbn [Js.replaceAllChar Js.includes Js.startsWith]. rewrite IH.
  destruct (Ascii.eqb c a) eqn:Hc.
  - replace (Ascii.eqb a b) with false
      by (symmetry; now apply Ascii.eqb_neq).
    reflexivity.
  - rewrite Ascii.eqb_sym, Hc. reflexivity.
Qed.

Lemma digits_acc_nonneg (s : string) :
  forall acc, 0 <= acc -> 0 <= Js.digits_acc acc s.
Proof.
  induction s as [| c s IH]; intros acc Hacc; cbn [Js.digits_acc];
    [exact Hacc |].
  destruct (Js.is_digit c) eqn:Hd; [| exact Hacc].
  apply IH. unfold Js.is_digit in Hd. cbv zeta in Hd.
  unfold Js.digit_val.
  apply andb_prop in Hd. destruct Hd as [Hlo _].
  apply Nat.leb_le in Hlo.
  assert (48 <= Z.of_nat (nat_of_ascii c)) by lia. lia.
Qed.

Lemma scan_lines_shape (wd : string) (ls : list string) (l : Location) :
  scan_lines wd ls = Some l ->
  (exists p, file l = Js.replaceAllChar "\"%char "/"%char p) /\ 0 <= line l.
Proof.
  induction ls as [| x ls IH]; simpl; [discriminate |].
  destruct (match_line x) as [mt |]; [| exact IH].
  destruct (negb (Js.includes (group 1 mt) "node_modules")); [| exact IH].
  intros H. inversion H; subst. simpl. split; [eauto |].
  now apply digits_acc_nonneg.
Qed.

(** Whatever it is given, the extractor reports a file without a
    backslash -- the separators are normalised -- and a line number that
    is not negative. *)
Theorem getErrorLocation_normalises :
  forall (e : value) (w : World),
    Js.includes (file (extracted e w)) "\" = false
    /\ 0 <= line (extracted e w).
Proof.
  intros e w.
  assert (Hcases : extracted e w = unknown
                   \/ exists ls, scan_lines (cwd w) ls = Some (extracted e w)).
  { unfold extracted, getErrorLocation.
    destruct (truthy e) eqn:Ht; cbn [negb]; [| now left].
    rewrite (get_truthy e "stack" Ht). run_M.
    destruct (truthy (read e "stack")); cbn [negb]; [| now left].
    destruct (read e "stack") as [| | b | z | s | ps | n m st];
      try (now left).
    cbn [fst].
    destruct (scan_lines (cwd w) (Js.split LF s)) as [l |] eqn:Hs;
      [right; eauto | now left]. }
  destruct Hcases as [-> | [ls Hls]].
  - split; [reflexivity | simpl; lia].
  - destruct (scan_lines_shape _ _ _ Hls) as [[p Hp] Hline].
    split; [| exact Hline].
    rewrite Hp. apply replaceAllChar_removes. discriminate.
Qed.

(* ===================================================================== *)
(** ** More on logUserMessage *)
(* ===================================================================== *)

Lemma get_readable (v : value) (k : string) :
  readable v = true -> get v k = ret (read v k).
Proof. destruct v; try reflexivity; discriminate. Qed.

(** The two outcomes of [logUserMessage] when the logger accepts calls. *)
Lemma logUserMessage_run :
  forall (w : World) (user msg userState : value),
    loggerThrows w = None ->
    if readable user && message_ok msg
    then logUserMessage user msg userState w
         = (Ok tt,
            emit (Call (VStr "info") (VStr "user_message")
                       (user_message_record user msg userState
                                            (resolved 2 w))) w)
    else exists what,
        logUserMessage user msg userState w = (Threw (TypeError what), w).
Proof.
  intros w user msg userState Hlog.
  unfold logUserMessage. cbv zeta. rewrite bind_getCallerInfo.
  destruct (readable user) eqn:Hu; cbn [andb].
  2: { destruct user; try discriminate; eexists; reflexivity. }
  rewrite !(get_readable user _ Hu).
  unfold message_ok.
  destruct (readable msg) eqn:Hm; cbn [andb].
  2: { destruct msg; try discriminate; run_M; split_ifs;
       eexists; reflexivity. }
  rewrite (get_readable msg "length" Hm).
  unfold user_message_record, state_fields, message_field, full_name.
  run_M. cbv beta iota zeta.
  destruct (gt (read msg "length") 500) eqn:Hgt; cbn [negb orb];
    destruct msg as [| | b | z | s | ps | n m st]; try discriminate;
    cbn [is_text]; cbv beta iota;
    try (eexists; reflexivity);
    try (unfold truncated; cbn [gt toNum read String.eqb Ascii.eqb Bool.eqb
                                andb] in Hgt; rewrite Hgt);
    destruct userState as [| | b' | z' | s' | ps' | n' m' st'];
    cbn [default truthy read String.eqb Ascii.eqb Bool.eqb andb];
    split_ifs;
    first [ apply logger_log_ok; exact Hlog | eexists; reflexivity ].
Qed.



Lemma length_append (a b : string) :
  String.length (a ++ b) = (String.length a + String.length b)%nat.
Proof. induction a as [| c a IH]; simpl; [reflexivity | now rewrite IH]. Qed.

Lemma take_short (n : nat) (s : string) :
  (String.length (Js.take n s) <= n)%nat.
Proof.
  revert s; induction n as [| n IH]; intros [| c s]; simpl; try lia.
  specialize (IH s). lia.
Qed.

Lemma take_append (a b : string) : Js.take (String.length a) (a ++ b) = a.
Proof.
  induction a as [| c a IH]; simpl; [now destruct b | now rewrite IH].
Qed.

(** The logged [message] of a string text is never longer than 503
    characters, and truncation is idempotent: a text that was already
    truncated is logged unchanged. *)
Theorem logUserMessage_message_bounded :
  forall (w : World) (user userState : value) (text : string),
    loggerThrows w = None ->
    readable user = true ->
    exists record,
      logUserMessage user (VStr text) userState w
      = (Ok tt, emit (Call (VStr "info") (VStr "user_message") record) w)
      /\ lookup "message" record = Some (VStr (truncated text))
      /\ (String.length (truncated text) <= 503)%nat
      /\ truncated (truncated text) = truncated text.
Proof.
  intros w user userState text Hlog Hu.
  pose proof (logUserMessage_run w user (VStr text) userState Hlog) as Hrun.
  unfold message_ok in Hrun. rewrite Hu in Hrun.
  cbn [readable is_text andb] in Hrun. rewrite orb_true_r in Hrun.
  eexists. split; [exact Hrun |].
  split; [| split].
  - unfold user_message_record, state_fields.
    destruct (truthy (default userState VNull)); [| reflexivity].
    cbv zeta.
    destruct (truthy (read (default userState VNull) "data")
              && (0 <? Z.of_nat (List.length
                     (keys (own_props (read (default userState VNull)
                                             "data"))))));
      reflexivity.
  - unfold truncated.
    destruct (500 <? Js.lengthZ text) eqn:Hlen.
    + rewrite length_append. pose proof (take_short 500 text) as Hshort.
      change (String.length "...") with 3%nat. lia.
    + apply Z.ltb_ge in Hlen. unfold Js.lengthZ in Hlen. lia.
  - unfold truncated.
    destruct (500 <? Js.lengthZ text) eqn:Hlen.
    + apply Z.ltb_lt in Hlen. unfold Js.lengthZ in Hlen.
      assert (H500 : String.length (Js.take 500 text) = 500%nat)
        by (apply take_length; lia).
      replace (500 <? Js.lengthZ (Js.take 500 text ++ "...")) with true
        by (symmetry; apply Z.ltb_lt; unfold Js.lengthZ;
            rewrite length_append, H500;
            change (String.length "...") with 3%nat; lia).
      pose proof (take_append (Js.take 500 text) "...") as Htake.
      rewrite H500 in Htake. now rewrite Htake.
    + now rewrite Hlen.
Qed.

(** A text of 501 characters. *)
Lemma logUserMessage_message_bounded_witness :
  exists record,
    logUserMessage (VObj [("id", VNum 7)]) (VStr (Clock.zeros 501))
                   VUndefined bot_world
    = (Ok tt, emit (Call (VStr "info") (VStr "user_message") record)
                   bot_world)
    /\ lookup "message" record = Some (VStr (truncated (Clock.zeros 501)))
    /\ (String.length (truncated (Clock.zeros 501)) <= 503)%nat
    /\ truncated (truncated (Clock.zeros 501)) = truncated (Clock.zeros 501).
Proof.
  exact (logUserMessage_message_bounded bot_world (VObj [("id", VNum 7)])
           VUndefined (Clock.zeros 501) eq_refl eq_refl).
Defined.

(** The [fullName] field of the record is [null] or a non-empty string
    that neither starts nor ends with white space: the first and last
    names joined by a space and trimmed, [null] standing for an empty
    result. *)
Theorem logUserMessage_fullName :
  forall (w : World) (user msg userState : value),
    loggerThrows w = None ->
    readable user && message_ok msg = true ->
    exists record,
      logUserMessage user msg userState w
      = (Ok tt, emit (Call (VStr "info") (VStr "user_message") record) w)
      /\ lookup "fullName" record = Some (full_name user)
      /\ (full_name user = VNull
          \/ exists s, full_name user = VStr s /\ s <> "" /\ clean_ends s).
Proof.
  intros w user msg userState Hlog Hok.
  pose proof (logUserMessage_run w user msg userState Hlog) as Hrun.
  rewrite Hok in Hrun.
  eexists. split; [exact Hrun |]. split.
  - unfold user_message_record, state_fields.
    destruct (truthy (default userState VNull)); [| reflexivity].
    cbv zeta.
    destruct (truthy (read (default userState VNull) "data")
              && (0 <? Z.of_nat (List.length
                     (keys (own_props (read (default userState VNull)
                                             "data"))))));
      reflexivity.
  - unfold full_name.
    set (t := Js.trim _).
    unfold or_else. cbn [truthy].
    destruct (String.eqb t "") eqn:Ht; cbn [negb]; [now left |].
    right. exists t. split; [reflexivity |]. split.
    + apply String.eqb_neq. exact Ht.
    + apply trim_spec.
Qed.

(** A user with a first name only, padded with blanks. *)
Lemma logUserMessage_fullName_witness :
  exists record,
    logUserMessage (VObj [("id", VNum 7); ("first_name", VStr " Ada ")])
                   (VStr "hi") VUndefined bot_world
    = (Ok tt, emit (Call (VStr "info") (VStr "user_message") record)
                   bot_world)
    /\ lookup "fullName" record = Some (VStr "Ada").
Proof.
  destruct (logUserMessage_fullName bot_world
              (VObj [("id", VNum 7); ("first_name", VStr " Ada ")])
              (VStr "hi") VUndefined eq_refl eq_refl)
    as [record [Hrun [Hname _]]].
  exists record. split; [exact Hrun | exact Hname].
Defined.

(** The record of [logUserMessage] has the properties userId, username,
    fullName, message and caller, in that order; then userState when a
    truthy user state is given -- its [current] when that is truthy, the
    state itself otherwise; then stateData when that state has a truthy
    [data] with at least one property. The state never replaces the
    caller or any of the five first properties. *)
Theorem logUserMessage_state_fields :
  forall (w : World) (user msg userState : value),
    loggerThrows w = None ->
    readable user && message_ok msg = true ->
    let state := default userState VNull in
    exists record,
      logUserMessage user msg userState w
      = (Ok tt, emit (Call (VStr "info") (VStr "user_message") record) w)
      /\ keys record
         = (["userId"; "username"; "fullName"; "message"; "caller"]
            ++ (if truthy state then ["userState"] else [])
            ++ (if has_state_data state then ["stateData"] else []))%list
      /\ lookup "caller" record = Some (VStr (caller_label (resolved 2 w)))
      /\ (truthy state = true ->
          lookup "userState" record
          = Some (or_else (read state "current") state))
      /\ (has_state_data state = true ->
          lookup "stateData" record = Some (read state "data")).
Proof.
  intros w user msg userState Hlog Hok state.
  pose proof (logUserMessage_run w user msg userState Hlog) as Hrun.
  rewrite Hok in Hrun.
  eexists. split; [exact Hrun |].
  unfold user_message_record, state_fields, has_state_data. fold state.
  destruct (truthy state); cbn [andb].
  - cbv zeta.
    destruct (truthy (read state "data")
              && (0 <? Z.of_nat (List.length
                                   (keys (own_props (read state "data"))))));
      repeat split; try reflexivity; discriminate.
  - repeat split; try reflexivity; discriminate.
Qed.

(** A state with a phase and one datum. *)
Lemma logUserMessage_state_fields_witness :
  let state := VObj [("current", VStr "registration");
                     ("data", VObj [("step", VNum 2)])] in
  exists record,
    logUserMessage (VObj [("id", VNum 7)]) (VStr "hi") state bot_world
    = (Ok tt, emit (Call (VStr "info") (VStr "user_message") record)
                   bot_world)
    /\ keys record
       = ["userId"; "username"; "fullName"; "message"; "caller";
          "userState"; "stateData"]
    /\ lookup "userState" record = Some (VStr "registration").
Proof.
  cbv zeta.
  destruct (logUserMessage_state_fields bot_world (VObj [("id", VNum 7)])
              (VStr "hi")
              (VObj [("current", VStr "registration");
                     ("data", VObj [("step", VNum 2)])])
              eq_refl eq_refl)
    as [record [Hrun [Hkeys [_ [Hstate _]]]]].
  exists record. split; [exact Hrun |].
  split; [exact Hkeys | exact (Hstate eq_refl)].
Defined.

(* ===================================================================== *)
(** ** The retry strategy *)
(* ===================================================================== *)

Lemma logError_string_run (text : string) (w : World) :
  loggerThrows w = None ->
  logError (VStr text) VUndefined VUndefined w
  = (Ok tt,
     emit (Call (VStr "error") (VStr text)
                [("caller", VStr (caller_label (resolved 2 w)))]) w).
Proof.
  intros Hlog. unfold logError. cbv zeta. rewrite bind_getCallerInfo.
  run_M. now apply logger_log_ok.
Qed.

Lemma retry_strategy_run (options : RetryOptions) (w : World) :
  retry_strategy options w
  = (if connection_refused options then
       bind (logError (VStr "Redis connection refused") VUndefined VUndefined)
            (fun _ => ret (GiveUp "Redis connection refused"))
     else if 1000 * 60 * 60 <? total_retry_time options then
       bind (logError (VStr "Redis retry time exhausted") VUndefined
                      VUndefined)
            (fun _ => ret (GiveUp "Retry time exhausted"))
     else if 10 <? attempt options then
       bind (logError (VStr "Redis max retry attempts reached") VUndefined
                      VUndefined)
            (fun _ => ret StopRetrying)
     else ret (RetryAfter (Z.min (attempt options * 50) 3000))) w.
Proof.
  unfold retry_strategy, connection_refused.
  destruct (truthy (retry_error options)) eqn:Ht; cbn [andb].
  - rewrite (get_truthy _ "code" Ht). reflexivity.
  - reflexivity.
Qed.

(** The delay the strategy returns is 50 ms times the attempt number and
    never more than 500 ms: it grows linearly, and the 3000 ms ceiling of
    the code is never reached, since the strategy stops retrying after
    the tenth attempt. It returns a delay, logging nothing, exactly when
    the connection was not refused, no more than an hour was spent and
    the attempt number is at most 10. *)
Theorem retry_strategy_delay :
  forall (options : RetryOptions) (w : World),
    (connection_refused options = false ->
     total_retry_time options <= 3600000 ->
     attempt options <= 10 ->
     retry_strategy options w
     = (Ok (RetryAfter (attempt options * 50)), w))
    /\ (forall d,
           fst (retry_strategy options w) = Ok (RetryAfter d) ->
           d = attempt options * 50 /\ d <= 500
           /\ connection_refused options = false
           /\ total_retry_time options <= 3600000
           /\ attempt options <= 10).
Proof.
  intros options w. rewrite retry_strategy_run. split.
  - intros Hr Ht Ha. rewrite Hr.
    replace (1000 * 60 * 60 <? total_retry_time options) with false
      by (symmetry; apply Z.ltb_ge; lia).
    replace (10 <? attempt options) with false
      by (symmetry; apply Z.ltb_ge; lia).
    unfold ret. do 2 f_equal. f_equal. lia.
  - intros d H.
    destruct (connection_refused options).
    { unfold bind in H.
      destruct (logError _ _ _ w) as [[[] | e] w']; simpl in H;
        discriminate. }
    destruct (1000 * 60 * 60 <? total_retry_time options) eqn:Ht.
    { unfold bind in H.
      destruct (logError _ _ _ w) as [[[] | e] w']; simpl in H;
        discriminate. }
    destruct (10 <? attempt options) eqn:Ha.
    { unfold bind in H.
      destruct (logError _ _ _ w) as [[[] | e] w']; simpl in H;
        discriminate. }
    apply Z.ltb_ge in Ht. apply Z.ltb_ge in Ha.
    unfold ret in H. simpl in H. inversion H. lia.
Qed.

(** The third attempt, and the tenth. *)
Lemma retry_strategy_delay_witness :
  retry_strategy (RetryOpts VUndefined 1200 3) bot_world
  = (Ok (RetryAfter 150), bot_world)
  /\ retry_strategy (RetryOpts VNull 60000 10) bot_world
     = (Ok (RetryAfter 500), bot_world).
Proof.
  split.
  - exact (proj1 (retry_strategy_delay (RetryOpts VUndefined 1200 3)
                    bot_world) eq_refl ltac:(simpl; lia) ltac:(simpl; lia)).
  - exact (proj1 (retry_strategy_delay (RetryOpts VNull 60000 10)
                    bot_world) eq_refl ltac:(simpl; lia) ltac:(simpl; lia)).
Defined.

(** The strategy stops in three cases, tested in this order: a refused
    connection and more than an hour of retrying each end with an error,
    more than ten attempts ends with no value. When the logger accepts
    the call, each of them logs exactly one record at level error, whose
    only field is the caller. *)
Theorem retry_strategy_stops :
  forall (options : RetryOptions) (w : World),
    loggerThrows w = None ->
    let logged text :=
      emit (Call (VStr "error") (VStr text)
                 [("caller", VStr (caller_label (resolved 2 w)))]) w in
    (connection_refused options = true ->
     retry_strategy options w
     = (Ok (GiveUp "Redis connection refused"),
        logged "Redis connection refused"))
    /\ (connection_refused options = false ->
        3600000 < total_retry_time options ->
        retry_strategy options w
        = (Ok (GiveUp "Retry time exhausted"),
           logged "Redis retry time exhausted"))
    /\ (connection_refused options = false ->
        total_retry_time options <= 3600000 ->
        10 < attempt options ->
        retry_strategy options w
        = (Ok StopRetrying, logged "Redis max retry attempts reached")).
Proof.
  intros options w Hlog logged. subst logged.
  rewrite retry_strategy_run. repeat split.
  - intros ->. unfold bind. now rewrite logError_string_run.
  - intros -> Ht.
    replace (1000 * 60 * 60 <? total_retry_time options) with true
      by (symmetry; apply Z.ltb_lt; lia).
    unfold bind. now rewrite logError_string_run.
  - intros -> Ht Ha.
    replace (1000 * 60 * 60 <? total_retry_time options) with false
      by (symmetry; apply Z.ltb_ge; lia).
    replace (10 <? attempt options) with true
      by (symmetry; apply Z.ltb_lt; lia).
    unfold bind. now rewrite logError_string_run.
Qed.

(** A refused connection on the first attempt, and an eleventh attempt. *)
Lemma retry_strategy_stops_witness :
  fst (retry_strategy
         (RetryOpts (VObj [("code", VStr "ECONNREFUSED")]) 0 1) bot_world)
  = Ok (GiveUp "Redis connection refused")
  /\ fst (retry_strategy (RetryOpts VUndefined 5000 11) bot_world)
     = Ok StopRetrying.
Proof.
  destruct (retry_strategy_stops
              (RetryOpts (VObj [("code", VStr "ECONNREFUSED")]) 0 1)
              bot_world eq_refl) as [H1 _].
  destruct (retry_strategy_stops (RetryOpts VUndefined 5000 11)
              bot_world eq_refl) as [_ [_ H3]].
  split.
  - now rewrite (H1 eq_refl).
  - now rewrite (H3 eq_refl ltac:(simpl; lia) ltac:(simpl; lia)).
Defined.

(* ===================================================================== *)
(** ** What the second argument contributes *)
(* ===================================================================== *)

Lemma log_at_context (lvl msg meta : value) (c : obj) (w : World)
      (op : value -> value -> value -> M unit) :
  (forall m ctx mt,
      op m ctx mt
      = (let ctx := default ctx empty_object in
         let mt := default mt empty_object in
         caller <- getCallerInfo 2 ;;
         userState <- get ctx "userState" ;;
         user <- get ctx "user" ;;
         logger_log lvl m
           (assign "caller" (VStr (caller_label caller))
              (spread mt (spread user (spread userState [])))))) ->
  op msg (VObj c) meta w
  = logger_log lvl msg
      (assign "caller" (VStr (caller_label (resolved 2 w)))
         (spread meta (spread (field c "user")
                              (spread (field c "userState") [])))) w.
Proof.
  intros Hop. rewrite Hop. cbv zeta. rewrite bind_getCallerInfo.
  run_M. cbn [default read]. cbv beta iota. now rewrite spread_default.
Qed.

(** Of the context passed as second argument, [logInfo], [logWarn],
    [logDebug] and [logError] on a string use the properties [userState]
    and [user] and nothing else: two contexts that agree on these two
    give the same outcome. In particular a plain map of fields passed as
    second argument, as the callers in app/index.js do, contributes
    nothing: the record then holds the caller only. *)
Theorem context_fields_are_not_logged :
  forall (w : World) (msg meta : value) (text : string) (c1 c2 : obj),
    field c1 "userState" = field c2 "userState" ->
    field c1 "user" = field c2 "user" ->
    (logInfo msg (VObj c1) meta w = logInfo msg (VObj c2) meta w
     /\ logWarn msg (VObj c1) meta w = logWarn msg (VObj c2) meta w
     /\ logDebug msg (VObj c1) meta w = logDebug msg (VObj c2) meta w
     /\ logError (VStr text) (VObj c1) meta w
        = logError (VStr text) (VObj c2) meta w)
    /\ (lookup "userState" c1 = None -> lookup "user" c1 = None ->
        loggerThrows w = None ->
        logInfo msg (VObj c1) VUndefined w
        = (Ok tt,
           emit (Call (VStr "info") msg
                      [("caller", VStr (caller_label (resolved 2 w)))]) w)).
Proof.
  intros w msg meta text c1 c2 Hs Hu. split; [repeat split |].
  - rewrite !(log_at_context (VStr "info") _ _ _ _ logInfo)
      by reflexivity.
    now rewrite Hs, Hu.
  - rewrite !(log_at_context (VStr "warn") _ _ _ _ logWarn)
      by reflexivity.
    now rewrite Hs, Hu.
  - rewrite !(log_at_context (VStr "debug") _ _ _ _ logDebug)
      by reflexivity.
    now rewrite Hs, Hu.
  - unfold logError. cbv zeta. rewrite !bind_getCallerInfo. run_M.
    cbn [default read toStr]. cbv beta iota. now rewrite Hs, Hu.
  - intros H1 H2 Hlog.
    rewrite (log_at_context (VStr "info") _ _ _ _ logInfo) by reflexivity.
    unfold field. rewrite H1, H2. now apply logger_log_ok.
Qed.

(** The call [logInfo('User state updated', { userId, state })] of
    app/index.js. *)
Lemma context_fields_are_not_logged_witness :
  logInfo (VStr "User state updated")
          (VObj [("userId", VNum 7); ("state", VStr "menu")]) VUndefined
          bot_world
  = (Ok tt,
     emit (Call (VStr "info") (VStr "User state updated")
                [("caller", VStr (caller_label (resolved 2 bot_world)))])
          bot_world)
  /\ logInfo (VStr "User state updated")
             (VObj [("userId", VNum 7); ("state", VStr "menu")]) VUndefined
             bot_world
     = logInfo (VStr "User state updated") (VObj []) VUndefined bot_world.
Proof.
  split.
  - exact (proj2 (context_fields_are_not_logged bot_world
                    (VStr "User state updated") VUndefined "x"
                    [("userId", VNum 7); ("state", VStr "menu")]
                    [("userId", VNum 7); ("state", VStr "menu")]
                    eq_refl eq_refl) eq_refl eq_refl eq_refl).
  - exact (proj1 (proj1 (context_fields_are_not_logged bot_world
                    (VStr "User state updated") VUndefined "x"
                    [("userId", VNum 7); ("state", VStr "menu")] []
                    eq_refl eq_refl))).
Defined.



(** [logWithCaller] logs the caller it is given, as it is, over a
    colliding [caller] of [meta] and without looking at the call stack or
    the working directory. The format [addCallerInfo] then keeps that
    caller when it is truthy; a falsy one ([undefined], the empty string)
    it replaces by what the resolver finds. *)
Theorem logWithCaller_uses_given_caller :
  forall (w : World) (lvl msg customCaller meta : value),
    loggerThrows w = None ->
    NoDup (keys (own_props meta)) ->
    let record := assign "caller" customCaller (spread meta []) in
    logWithCaller lvl msg customCaller meta w
    = (Ok tt, emit (Call lvl msg record) w)
    /\ lookup "caller" record = Some customCaller
    /\ (forall k, k <> "caller" ->
                  lookup k record = lookup k (own_props meta))
    /\ (truthy customCaller = true ->
        addCallerInfo record w = (Ok record, w))
    /\ (truthy customCaller = false ->
        addCallerInfo record w
        = (Ok (assign "caller" (VStr (caller_label (resolved 5 w))) record),
           w)).
Proof.
  intros w lvl msg customCaller meta Hlog Hnd record. subst record.
  split; [| split; [| split; [| split]]].
  - unfold logWithCaller. cbv zeta. rewrite spread_default.
    now apply logger_log_ok.
  - apply lookup_assign_eq.
  - intros k Hk. rewrite lookup_assign_neq by exact Hk.
    rewrite lookup_spread by exact Hnd.
    now destruct (lookup k (own_props meta)).
  - intros Ht. unfold addCallerInfo, field.
    rewrite lookup_assign_eq, Ht. reflexivity.
  - intros Ht. unfold addCallerInfo, field.
    rewrite lookup_assign_eq, Ht. cbn [negb].
    now rewrite bind_getCallerInfo.
Qed.

(** A caller given by hand, and one left empty. *)
Lemma logWithCaller_uses_given_caller_witness :
  logWithCaller (VStr "warn") (VStr "slow") (VStr "jobs/cron")
                (VObj [("caller", VStr "x"); ("ms", VNum 900)]) bot_world
  = (Ok tt,
     emit (Call (VStr "warn") (VStr "slow")
                [("caller", VStr "jobs/cron"); ("ms", VNum 900)]) bot_world)
  /\ addCallerInfo (assign "caller" (VStr "") (spread VUndefined []))
                   bot_world
     = (Ok [("caller", VStr (caller_label (resolved 5 bot_world)))],
        bot_world).
Proof.
  assert (H1 : NoDup ["caller"; "ms"])
    by (repeat constructor; simpl; intuition discriminate).
  assert (H2 : NoDup (@nil string)) by constructor.
  split.
  - exact (proj1 (logWithCaller_uses_given_caller bot_world (VStr "warn")
                    (VStr "slow") (VStr "jobs/cron")
                    (VObj [("caller", VStr "x"); ("ms", VNum 900)])
                    eq_refl H1)).
  - destruct (logWithCaller_uses_given_caller bot_world (VStr "warn")
                (VStr "slow") (VStr "") VUndefined eq_refl H2)
      as [_ [_ [_ [_ H]]]].
    exact (H eq_refl).
Defined.

(** A valid instant seen from a host at UTC and from one at UTC-8. *)
Lemma console_timestamp_host_independent_witness :
  Clock.console_timestamp 1704067200000 0
  = Clock.console_timestamp 1704067200000 480.
Proof.
  exact (console_timestamp_host_independent 1704067200000 0 480
           eq_refl eq_refl).
Defined.

(* ===================================================================== *)
(** ** The Redis service *)
(* ===================================================================== *)

Section RedisServiceFacts.

Variable Client : Type.
Variable client_isReady : Client -> value.
Variable client_get : value -> Client -> Outcome value * Client.
Variable client_setEx :
  value -> value -> value -> Client -> Outcome unit * Client.
Variable client_del : value -> Client -> Outcome value * Client.
Variable JSON_stringify : value -> value.
Variable JSON_parse : value -> Outcome value.

Lemma isReady_truthy (s : Service Client) :
  exists v, isReady Client client_isReady s = (Fulfilled v, s)
            /\ truthy v = service_ready client_isReady s.
Proof.
  unfold isReady, service_ready.
  destruct (isConnected s); cbn [andb]; [| eexists; split; reflexivity].
  destruct (client s); eexists; split; reflexivity.
Qed.

Lemma logError_caught (text : string) (t : thrown) (w : World) :
  loggerThrows w = None ->
  logError (VStr text) (thrown_value t) VUndefined w
  = (Ok tt,
     emit (Call (VStr "error") (VStr text)
                [("caller", VStr (caller_label (resolved 2 w)))]) w).
Proof.
  intros Hlog. unfold logError. cbv zeta. rewrite bind_getCallerInfo.
  destruct t as [[what | x | what | what] | text'];
    run_M; now apply logger_log_ok.
Qed.

Lemma logInfo_fields (text : string) (c : obj) (w : World) :
  loggerThrows w = None ->
  lookup "userState" c = None -> lookup "user" c = None ->
  logInfo (VStr text) (VObj c) VUndefined w
  = (Ok tt,
     emit (Call (VStr "info") (VStr text)
                [("caller", VStr (caller_label (resolved 2 w)))]) w).
Proof.
  intros Hlog H1 H2.
  rewrite (log_at_context (VStr "info") _ _ _ _ logInfo) by reflexivity.
  unfold field. rewrite H1, H2. now apply logger_log_ok.
Qed.

Lemma caught (text : string) (t : thrown) (v : value) (s : Service Client) :
  loggerThrows (world s) = None ->
  bindR Client
    (in_world Client (logError (VStr text) (thrown_value t) VUndefined))
    (fun _ => retR Client v) s
  = (Fulfilled v, failure_logged text s).
Proof.
  intros Hlog. unfold bindR, in_world.
  rewrite (logError_caught text t (world s) Hlog). reflexivity.
Qed.

Lemma silent_stable {A} (m : M A) : silent m -> logger_stable m.
Proof. intros H w. now rewrite H. Qed.

Lemma aon_stable (m : M unit) : all_or_nothing m -> logger_stable m.
Proof.
  intros H w. destruct (H w) as [[e ->] | [c ->]]; reflexivity.
Qed.

Lemma logInfo_stable (msg ctx meta : value) :
  logger_stable (logInfo msg ctx meta).
Proof. apply aon_stable. unfold logInfo. cbv zeta. footprint. Qed.

Lemma logError_stable (error ctx meta : value) :
  logger_stable (logError error ctx meta).
Proof.
  apply aon_stable. unfold logError. cbv zeta. destruct error; footprint.
Qed.

Lemma keeps_retR {A} (a : A) : keeps_logger (retR Client a).
Proof. intros s. reflexivity. Qed.

Lemma keeps_throwR {A} (t : thrown) : keeps_logger (@throwR Client A t).
Proof. intros s. reflexivity. Qed.

Lemma keeps_bindR {A B} (c : R Client A) (k : A -> R Client B) :
  keeps_logger c -> (forall a, keeps_logger (k a)) ->
  keeps_logger (bindR Client c k).
Proof.
  intros Hc Hk s. unfold bindR. specialize (Hc s).
  destruct (c s) as [[a | t] s']; simpl in *; [| exact Hc].
  now rewrite Hk.
Qed.

Lemma keeps_try {A} (body : R Client A) (handler : thrown -> R Client A) :
  keeps_logger body -> (forall t, keeps_logger (handler t)) ->
  keeps_logger (try_catchR Client body handler).
Proof.
  intros Hb Hh s. unfold try_catchR. specialize (Hb s).
  destruct (body s) as [[a | t] s']; simpl in *; [exact Hb |].
  now rewrite Hh.
Qed.

Lemma keeps_in_world {A} (m : M A) :
  logger_stable m -> keeps_logger (in_world Client m).
Proof.
  intros Hm s. unfold in_world. specialize (Hm (world s)).
  destruct (m (world s)) as [[a | e] w']; exact Hm.
Qed.

Lemma keeps_on_client {A} (op : Client -> Outcome A * Client) :
  keeps_logger (on_client Client op).
Proof.
  intros s. unfold on_client. destruct (client s) as [c |]; [| reflexivity].
  now destruct (op c).
Qed.

Lemma keeps_now_iso : keeps_logger (now_iso Client).
Proof.
  intros s. unfold now_iso. now destruct (Clock.toISOString (clock s)).
Qed.

Lemma keeps_of_outcome {A} (r : Outcome A) :
  keeps_logger (of_outcome Client r).
Proof. intros s. reflexivity. Qed.

Lemma keeps_isReady : keeps_logger (isReady Client client_isReady).
Proof. intros s. reflexivity. Qed.

Lemma keeps_set_prop (o : value) (k : string) (v : value) :
  keeps_logger (set_prop Client o k v).
Proof. intros s. destruct o; reflexivity. Qed.

Ltac keeps :=
  repeat first
    [ apply keeps_retR | apply keeps_throwR | apply keeps_on_client
    | apply keeps_now_iso | apply keeps_of_outcome | apply keeps_isReady
    | apply keeps_set_prop
    | apply keeps_in_world;
      first [ apply logInfo_stable | apply logError_stable
            | apply silent_stable; apply silent_get ]
    | apply keeps_bindR; [| intros ?]
    | apply keeps_try; [| intros ?]
    | match goal with
      | |- keeps_logger (if ?b then _ else _) => destruct b
      end ].

Lemma keeps_setUserState (userId state ttl : value) :
  keeps_logger (setUserState Client client_isReady client_setEx
                             JSON_stringify userId state ttl).
Proof. unfold setUserState. cbv zeta. keeps. Qed.




(** No method touches the client or the log of a service that is not
    ready, except [setUserState]: [getUserState] and [getCache] give
    [null], [deleteUserState], [updateUserStateField] and [setCache]
    give [false], and the service is left exactly as it was. *)
Theorem service_not_ready :
  forall (s : Service Client) (userId fld val key ttl parseJson : value),
    service_ready client_isReady s = false ->
    getUserState Client client_isReady client_get JSON_parse userId s
    = (Fulfilled VNull, s)
    /\ deleteUserState Client client_isReady client_del userId s
       = (Fulfilled (VBool false), s)
    /\ updateUserStateField Client client_isReady client_get client_setEx
         JSON_stringify JSON_parse userId fld val s
       = (Fulfilled (VBool false), s)
    /\ setCache Client client_isReady client_setEx JSON_stringify
                key val ttl s
       = (Fulfilled (VBool false), s)
    /\ getCache Client client_isReady client_get JSON_parse key parseJson s
       = (Fulfilled VNull, s).
Proof.
  intros s userId fld val key ttl parseJson Hready.
  destruct (isReady_truthy s) as [v [Hv Ht]]. rewrite Hready in Ht.
  assert (Hget : getUserState Client client_isReady client_get JSON_parse
                              userId s = (Fulfilled VNull, s)).
  { unfold getUserState, try_catchR, bindR. rewrite Hv, Ht. reflexivity. }
  repeat split.
  - exact Hget.
  - unfold deleteUserState, try_catchR, bindR. rewrite Hv, Ht. reflexivity.
  - unfold updateUserStateField, try_catchR. unfold bindR at 1.
    rewrite Hget. reflexivity.
  - unfold setCache. cbv zeta. unfold try_catchR, bindR.
    rewrite Hv, Ht. reflexivity.
  - unfold getCache. cbv zeta. unfold try_catchR, bindR.
    rewrite Hv, Ht. reflexivity.
Qed.

(** On a service that is not ready [setUserState] differs from the other
    methods: it throws to its own handler, so that, when the logger
    accepts the call, it returns [false] having logged one error record
    under "Failed to set user state:"; the client is not called. *)
Theorem setUserState_not_ready :
  forall (s : Service Client) (userId state ttl : value),
    service_ready client_isReady s = false ->
    loggerThrows (world s) = None ->
    setUserState Client client_isReady client_setEx JSON_stringify
                 userId state ttl s
    = (Fulfilled (VBool false), failure_logged "Failed to set user state:" s).
Proof.
  intros s userId state ttl Hready Hlog.
  destruct (isReady_truthy s) as [v [Hv Ht]]. rewrite Hready in Ht.
  unfold setUserState. cbv zeta. unfold try_catchR. unfold bindR at 1.
  rewrite Hv, Ht. cbn [negb]. unfold throwR.
  now rewrite caught.
Qed.

Lemma isReady_ready (s : Service Client) :
  service_ready client_isReady s = true ->
  exists v, isReady Client client_isReady s = (Fulfilled v, s)
            /\ truthy v = true.
Proof.
  intros H. destruct (isReady_truthy s) as [v [Hv Ht]].
  exists v. split; [exact Hv | congruence].
Qed.

(** [setUserState] on a ready service, step by step. *)
Lemma setUserState_run :
  forall (s : Service Client) (c c' : Client)
         (userId state ttl : value) (iso : string),
    client s = Some c ->
    service_ready client_isReady s = true ->
    Clock.toISOString (clock s) = Some iso ->
    loggerThrows (world s) = None ->
    let stateData := assign "updatedAt" (VStr iso) (spread state []) in
    client_setEx (VStr ("user_state:" ++ toStr userId))
                 (default ttl (VNum 86400))
                 (JSON_stringify (VObj stateData)) c
    = (Fulfilled tt, c') ->
    lookup "updatedAt" stateData = Some (VStr iso)
    /\ (readable state = true ->
        setUserState Client client_isReady client_setEx JSON_stringify
                     userId state ttl s
        = (Fulfilled (VBool true),
           with_world
             (emit (Call (VStr "info") (VStr "User state updated")
                      [("caller",
                        VStr (caller_label (resolved 2 (world s))))])
                   (world s))
             (with_client c' s)))
    /\ (readable state = false ->
        setUserState Client client_isReady client_setEx JSON_stringify
                     userId state ttl s
        = (Fulfilled (VBool false),
           failure_logged "Failed to set user state:" (with_client c' s))).
Proof.
  intros s c c' userId state ttl iso Hc Hready Hiso Hlog stateData Hset.
  destruct (isReady_ready s Hready) as [v [Hv Ht]].
  split; [apply lookup_assign_eq |].
  split; intros Hstate.
  - unfold setUserState. cbv zeta. unfold try_catchR.
    unfold bindR at 1. rewrite Hv, Ht. cbn [negb].
    unfold bindR at 1. unfold now_iso. rewrite Hiso.
    unfold bindR at 1. unfold on_client. rewrite Hc.
    fold stateData. rewrite Hset.
    unfold bindR at 1. unfold in_world at 1.
    rewrite (get_readable state "current" Hstate). unfold ret.
    cbn [world].
    unfold bindR, in_world. cbn [world].
    rewrite logInfo_fields by (assumption || reflexivity).
    reflexivity.
  - unfold setUserState. cbv zeta. unfold try_catchR.
    unfold bindR at 1. rewrite Hv, Ht. cbn [negb].
    unfold bindR at 1. unfold now_iso. rewrite Hiso.
    unfold bindR at 1. unfold on_client. rewrite Hc.
    fold stateData. rewrite Hset.
    unfold bindR at 1. unfold in_world at 1.
    assert (Hget : exists what,
               get state "current" = throw (TypeError what)).
    { destruct state; try discriminate; eexists; reflexivity. }
    destruct Hget as [what ->]. unfold throw. cbn [world].
    now rewrite caught.
Qed.

(** On a ready service, with a valid clock and a client that accepts the
    write, [setUserState] writes once, under the key "user_state:" and
    the user id, with the given time to live (86400 seconds by default),
    the JSON of the state with [updatedAt] set to the current instant
    over any [updatedAt] of the state. When the logger accepts the
    call, it then returns [true] having logged one info record, whose
    only field is the caller: the user id and the state are passed as
    the context and are not logged. On a state that is [undefined] or
    [null] the write is made all the same, and the method then fails on
    [state.current]: it logs the failure and returns [false]. *)
Theorem setUserState_writes_stamped_state :
  forall (s : Service Client) (c c' : Client)
         (userId state ttl : value) (iso : string),
    client s = Some c ->
    service_ready client_isReady s = true ->
    Clock.toISOString (clock s) = Some iso ->
    loggerThrows (world s) = None ->
    let stateData := assign "updatedAt" (VStr iso) (spread state []) in
    client_setEx (VStr ("user_state:" ++ toStr userId))
                 (default ttl (VNum 86400))
                 (JSON_stringify (VObj stateData)) c
    = (Fulfilled tt, c') ->
    lookup "updatedAt" stateData = Some (VStr iso)
    /\ (readable state = true ->
        setUserState Client client_isReady client_setEx JSON_stringify
                     userId state ttl s
        = (Fulfilled (VBool true),
           with_world
             (emit (Call (VStr "info") (VStr "User state updated")
                      [("caller",
                        VStr (caller_label (resolved 2 (world s))))])
                   (world s))
             (with_client c' s)))
    /\ (readable state = false ->
        setUserState Client client_isReady client_setEx JSON_stringify
                     userId state ttl s
        = (Fulfilled (VBool false),
           failure_logged "Failed to set user state:" (with_client c' s))).
Proof.
  intros s c c' userId state ttl iso Hc Hready Hiso Hlog stateData Hset.
  exact (setUserState_run s c c' userId state ttl iso Hc Hready Hiso Hlog
           Hset).
Qed.

(** [updateUserStateField] on a ready service whose client holds a JSON
    object for the user: the field is set, [updatedAt] is stamped, and
    the state is written back through [setUserState] with no time to
    live of its own -- so the key's time to live is reset to the default
    86400 seconds, whatever it was. *)
Theorem updateUserStateField_resets_ttl :
  forall (s : Service Client) (c c1 c2 : Client)
         (userId fld val json : value) (st : obj) (iso : string),
    client s = Some c ->
    service_ready client_isReady s = true ->
    Clock.toISOString (clock s) = Some iso ->
    loggerThrows (world s) = None ->
    let key := VStr ("user_state:" ++ toStr userId) in
    client_get key c = (Fulfilled json, c1) ->
    truthy json = true ->
    JSON_parse json = Fulfilled (VObj st) ->
    truthy (client_isReady c1) = true ->
    let updated :=
      assign "updatedAt" (VStr iso) (assign (toStr fld) val st) in
    client_setEx key (VNum 86400)
      (JSON_stringify
         (VObj (assign "updatedAt" (VStr iso) (spread (VObj updated) []))))
      c1
    = (Fulfilled tt, c2) ->
    updateUserStateField Client client_isReady client_get client_setEx
      JSON_stringify JSON_parse userId fld val s
    = (Fulfilled (VBool true),
       with_world
         (emit (Call (VStr "info") (VStr "User state updated")
                  [("caller", VStr (caller_label (resolved 2 (world s))))])
               (world s))
         (with_client c2 s)).
Proof.
  intros s c c1 c2 userId fld val json st iso Hc Hready Hiso Hlog key
         Hget Hjson Hparse Hready1 updated Hset.
  destruct (isReady_ready s Hready) as [v [Hv Ht]].
  assert (Hstate : getUserState Client client_isReady client_get JSON_parse
                     userId s
                   = (Fulfilled (VObj st), with_client c1 s)).
  { unfold getUserState, try_catchR.
    unfold bindR at 1. rewrite Hv, Ht. cbn [negb].
    unfold bindR at 1. unfold on_client. rewrite Hc.
    fold key. rewrite Hget, Hjson. cbn [negb].
    unfold bindR, of_outcome. rewrite Hparse. reflexivity. }
  unfold updateUserStateField, try_catchR.
  unfold bindR at 1. rewrite Hstate. cbn [truthy negb].
  unfold bindR at 1. cbn [set_prop]. unfold retR at 1.
  unfold bindR at 1. unfold now_iso. cbn [clock with_client].
  rewrite Hiso.
  unfold bindR at 1. cbn [set_prop]. unfold retR at 1.
  fold updated.
  assert (Hready' : service_ready client_isReady (with_client c1 s) = true).
  { unfold service_ready in *. cbn [isConnected client with_client].
    apply andb_prop in Hready. destruct Hready as [-> _].
    now rewrite Hready1. }
  destruct (setUserState_run (with_client c1 s) c1 c2
              userId (VObj updated) VUndefined iso
              eq_refl Hready' Hiso Hlog Hset) as [_ [Hok _]].
  rewrite (Hok eq_refl). reflexivity.
Qed.

(** A string is cached as it is, without JSON quoting; any other value
    as its JSON. Reading a cached non-empty string back with the default
    [parseJson] therefore gives what [JSON.parse] makes of it -- and
    [null], with the failure logged, when the string is not JSON; it
    comes back unchanged only with [parseJson] false. An empty string
    reads back as [null]. *)
Theorem cache_of_a_string :
  forall (s : Service Client) (c c1 c2 : Client)
         (key ttl parseJson : value) (text : string),
    client s = Some c ->
    service_ready client_isReady s = true ->
    truthy (client_isReady c1) = true ->
    loggerThrows (world s) = None ->
    client_setEx key (default ttl (VNum 3600)) (VStr text) c
    = (Fulfilled tt, c1) ->
    client_get key c1 = (Fulfilled (VStr text), c2) ->
    let s1 := with_client c1 s in
    let s2 := with_client c2 s in
    setCache Client client_isReady client_setEx JSON_stringify
             key (VStr text) ttl s
    = (Fulfilled (VBool true), s1)
    /\ getCache Client client_isReady client_get JSON_parse key parseJson s1
       = (if String.eqb text "" then (Fulfilled VNull, s2)
          else if truthy (default parseJson (VBool true)) then
            match JSON_parse (VStr text) with
            | Fulfilled v => (Fulfilled v, s2)
            | Rejected _ =>
                (Fulfilled VNull, failure_logged "Failed to get cache:" s2)
            end
          else (Fulfilled (VStr text), s2)).
Proof.
  intros s c c1 c2 key ttl parseJson text Hc Hready Hready1 Hlog
         Hset Hget s1 s2.
  destruct (isReady_ready s Hready) as [v [Hv Ht]].
  assert (Hready' : service_ready client_isReady s1 = true).
  { unfold service_ready in *. subst s1. cbn [isConnected client with_client].
    apply andb_prop in Hready. destruct Hready as [-> _].
    now rewrite Hready1. }
  destruct (isReady_ready s1 Hready') as [v1 [Hv1 Ht1]].
  split.
  - unfold setCache. cbv zeta. unfold try_catchR.
    unfold bindR at 1. rewrite Hv, Ht. cbn [negb is_text].
    unfold bindR, on_client. rewrite Hc, Hset. reflexivity.
  - unfold getCache. cbv zeta. unfold try_catchR.
    unfold bindR at 1. rewrite Hv1, Ht1. cbn [negb].
    unfold bindR at 1. unfold on_client. subst s1.
    cbn [client with_client]. rewrite Hget. cbn [truthy].
    destruct (String.eqb text ""); cbn [negb]; [reflexivity |].
    destruct (truthy (default parseJson (VBool true))); [| reflexivity].
    unfold of_outcome.
    destruct (JSON_parse (VStr text)) as [v' | t]; [reflexivity |].
    now rewrite caught.
Qed.

End RedisServiceFacts.


(** A service that was never connected. *)
Lemma service_not_ready_witness :
  let s : Service store := MkService bot_world None false 0 in
  service_ready (fun _ => VBool true) s = false
  /\ getCache store (fun _ => VBool true) store_get
       (fun v => Fulfilled v) (VStr "menu") VUndefined s
     = (Fulfilled VNull, s).
Proof.
  split; [reflexivity |].
  exact (proj2 (proj2 (proj2 (proj2
    (service_not_ready store (fun _ => VBool true)
       store_get store_setEx store_del (fun _ => VStr "{}")
       (fun v => Fulfilled v)
       (MkService bot_world None false 0)
       (VNum 7) (VStr "step") (VNum 2) (VStr "menu") VUndefined
       VUndefined eq_refl))))).
Defined.

Lemma setUserState_not_ready_witness :
  let s : Service store := MkService bot_world None false 0 in
  service_ready (fun _ => VBool true) s = false
  /\ loggerThrows (world s) = None
  /\ setUserState store (fun _ => VBool true) store_setEx
       (fun _ => VStr "{}") (VNum 7)
       (VObj [("current", VStr "menu")]) VUndefined s
     = (Fulfilled (VBool false),
        failure_logged "Failed to set user state:" s).
Proof.
  split; [reflexivity |]. split; [reflexivity |].
  exact (setUserState_not_ready store (fun _ => VBool true) store_setEx
           (fun _ => VStr "{}") (MkService bot_world None false 0)
           (VNum 7) (VObj [("current", VStr "menu")]) VUndefined
           eq_refl eq_refl).
Defined.

(** The state of user 7 written at the start of 2024. *)
Lemma setUserState_writes_stamped_state_witness :
  let s : Service store :=
    MkService bot_world (Some []) true 1704067200000 in
  let c' : store := [("user_state:7", VStr "{}")] in
  Clock.toISOString (clock s) = Some "2024-01-01T00:00:00.000Z"
  /\ store_setEx (VStr "user_state:7") (VNum 86400) (VStr "{}") []
     = (Fulfilled tt, c')
  /\ setUserState store (fun _ => VBool true) store_setEx
       (fun _ => VStr "{}") (VNum 7)
       (VObj [("current", VStr "menu")]) VUndefined s
     = (Fulfilled (VBool true),
        with_world
          (emit (Call (VStr "info") (VStr "User state updated")
                   [("caller",
                     VStr (caller_label (resolved 2 (world s))))])
                (world s))
          (with_client c' s)).
Proof.
  split; [reflexivity |]. split; [reflexivity |].
  exact (proj1 (proj2
    (setUserState_writes_stamped_state store (fun _ => VBool true)
       store_setEx (fun _ => VStr "{}")
       (MkService bot_world (Some []) true 1704067200000)
       [] [("user_state:7", VStr "{}")]
       (VNum 7) (VObj [("current", VStr "menu")]) VUndefined
       "2024-01-01T00:00:00.000Z"
       eq_refl eq_refl eq_refl eq_refl eq_refl)) eq_refl).
Defined.

(** The field [step] of the state of user 7. *)
Lemma updateUserStateField_resets_ttl_witness :
  let c : store := [("user_state:7", VStr "{}")] in
  let s : Service store :=
    MkService bot_world (Some c) true 1704067200000 in
  store_get (VStr "user_state:7") c = (Fulfilled (VStr "{}"), c)
  /\ store_setEx (VStr "user_state:7") (VNum 86400) (VStr "{}") c
     = (Fulfilled tt, c)
  /\ updateUserStateField store (fun _ => VBool true) store_get store_setEx
       (fun _ => VStr "{}") (fun _ => Fulfilled (VObj []))
       (VNum 7) (VStr "step") (VNum 2) s
     = (Fulfilled (VBool true),
        with_world
          (emit (Call (VStr "info") (VStr "User state updated")
                   [("caller",
                     VStr (caller_label (resolved 2 (world s))))])
                (world s))
          (with_client c s)).
Proof.
  split; [reflexivity |]. split; [reflexivity |].
  exact (updateUserStateField_resets_ttl store (fun _ => VBool true)
           store_get store_setEx (fun _ => VStr "{}")
           (fun _ => Fulfilled (VObj []))
           (MkService bot_world (Some [("user_state:7", VStr "{}")]) true
                      1704067200000)
           [("user_state:7", VStr "{}")] [("user_state:7", VStr "{}")]
           [("user_state:7", VStr "{}")]
           (VNum 7) (VStr "step") (VNum 2) (VStr "{}") []
           "2024-01-01T00:00:00.000Z"
           eq_refl eq_refl eq_refl eq_refl eq_refl eq_refl eq_refl eq_refl
           eq_refl).
Defined.

(** The text "hello" cached under "greeting", with a parser that rejects
    it: it reads back as [null], and the failure is logged. *)
Lemma cache_of_a_string_witness :
  let c1 : store := [("greeting", VStr "hello")] in
  let s : Service store := MkService bot_world (Some []) true 0 in
  store_setEx (VStr "greeting") (VNum 3600) (VStr "hello") []
  = (Fulfilled tt, c1)
  /\ store_get (VStr "greeting") c1 = (Fulfilled (VStr "hello"), c1)
  /\ setCache store (fun _ => VBool true) store_setEx (fun _ => VStr "{}")
       (VStr "greeting") (VStr "hello") VUndefined s
     = (Fulfilled (VBool true), with_client c1 s)
  /\ getCache store (fun _ => VBool true) store_get
       (fun _ => Rejected (ErrorObject "Unexpected token h in JSON"))
       (VStr "greeting") VUndefined (with_client c1 s)
     = (Fulfilled VNull,
        failure_logged "Failed to get cache:" (with_client c1 s)).
Proof.
  split; [reflexivity |]. split; [reflexivity |].
  exact (cache_of_a_string store (fun _ => VBool true)
           store_get store_setEx (fun _ => VStr "{}")
           (fun _ => Rejected (ErrorObject "Unexpected token h in JSON"))
           (MkService bot_world (Some []) true 0)
           [] [("greeting", VStr "hello")] [("greeting", VStr "hello")]
           (VStr "greeting") VUndefined VUndefined "hello"
           eq_refl eq_refl eq_refl eq_refl eq_refl eq_refl).
Defined.
